(** * BajajRX_AIAgent: clause ingestion, vector search and query pipeline

    A shallow embedding of [AI_System/utils.py] ([extract_and_store_clauses])
    and of the index functions and the views [upload_document],
    [get_progress] and [process_query] of [AI_System/views.py].

    - Python text is a sequence of Unicode code points; [len], [strip],
      [split], [join], [startswith], [replace] and [in] are written out on
      [list N].
    - The relational store is a record of tables kept in primary-key order;
      the Django cache is a finite map (entries do not expire here); the
      module-level variables [faiss_index] and [clause_texts] are fields of
      the same process state.
    - A view is a computation over that state which returns a value or
      raises; what it wrote before raising stays written.
    - The collaborators (settings, [json.loads], the Gemini model, the
      sentence encoder, PyMuPDF, [uuid4]) are the fields of a record
      [World]; every statement holds for all of them.
    - The background thread of an upload is kept in the state when started
      and runs as a whole when scheduled.  *)

From Stdlib Require Import ZArith List Bool Lia Ascii String SpecFloat DecimalString Sorted.
From stdpp Require Import base option list gmap.
Import ListNotations.

Local Open Scope Z_scope.

(** ** Python text *)

Abbreviation str := (list N).

(** An ASCII literal as a sequence of code points. *)
Definition py (s : string) : str :=
  List.map N_of_ascii (list_ascii_of_string s).

(** [str.isspace] on one code point: the characters [str.strip()] removes. *)
Definition isspace (c : N) : bool :=
  ((9 <=? c) && (c <=? 13) || (28 <=? c) && (c <=? 32)
   || (c =? 133) || (c =? 160) || (c =? 5760)
   || (8192 <=? c) && (c <=? 8202)
   || (c =? 8232) || (c =? 8233) || (c =? 8239) || (c =? 8287)
   || (c =? 12288))%N.

Definition nonempty {A} (l : list A) : bool :=
  match l with [] => false | _ :: _ => true end.

Fixpoint lstrip (s : str) : str :=
  match s with
  | [] => []
  | c :: s' => if isspace c then lstrip s' else s
  end.

Fixpoint rstrip (s : str) : str :=
  match s with
  | [] => []
  | c :: s' =>
      let r := rstrip s' in
      if isspace c && negb (nonempty r) then [] else c :: r
  end.

(** [s.strip()] *)
Definition strip (s : str) : str := rstrip (lstrip s).

(** [s.split("\n")] *)
Fixpoint split_nl (s : str) : list str :=
  match s with
  | [] => [[]]
  | c :: s' =>
      match split_nl s' with
      | [] => [[c]]
      | l :: ls => if (c =? 10)%N then [] :: l :: ls else (c :: l) :: ls
      end
  end.

(** [sep.join(parts)] *)
Fixpoint join (sep : str) (parts : list str) : str :=
  match parts with
  | [] => []
  | [p] => p
  | p :: ps => p ++ sep ++ join sep ps
  end.

Fixpoint is_prefix (p s : str) : bool :=
  match p, s with
  | [], _ => true
  | _ :: _, [] => false
  | a :: p', b :: s' => (a =? b)%N && is_prefix p' s'
  end.

(** [s.startswith(p)] *)
Definition startswith (s p : str) : bool := is_prefix p s.

(** [needle in hay] on text *)
Fixpoint contains (hay needle : str) : bool :=
  is_prefix needle hay ||
  match hay with
  | [] => false
  | _ :: hay' => contains hay' needle
  end.

(** [s.replace(old, new)] for a non-empty [old]: leftmost occurrences,
    not overlapping.  [skip] counts the characters of an occurrence that
    was just replaced and are still to be passed over. *)
Fixpoint replace_from (old new : str) (skip : nat) (s : str) : str :=
  match s with
  | [] => []
  | c :: s' =>
      match skip with
      | S k => replace_from old new k s'
      | O =>
          if is_prefix old s
          then new ++ replace_from old new (Nat.pred (length old)) s'
          else c :: replace_from old new 0 s'
      end
  end.

Definition replace (s old new : str) : str := replace_from old new 0 s.

(** ** Clause segmentation ([utils.py], lines 18-32) *)

Module Segmenter.

(** [raw_clauses = [p.strip() for p in full_text.split("\n") if p.strip()]],
    given the lines the split produced. *)
Definition raw_clauses (lines : list str) : list str :=
  List.map strip (List.filter (fun p => nonempty (strip p)) lines).

(** One iteration of [for line in raw_clauses], on the pair
    [(clauses, buffer)]. *)
Definition step (acc : list str * str) (line : str) : list str * str :=
  let '(clauses, buffer) := acc in
  if (Z.of_nat (length line) <? 40)
  then (clauses, buffer ++ py " " ++ line)
  else if nonempty buffer
       then ((clauses ++ [strip buffer]) ++ [line], [])
       else (clauses ++ [line], buffer).

(** The flush after the loop. *)
Definition flush (acc : list str * str) : list str :=
  let '(clauses, buffer) := acc in
  if nonempty buffer then clauses ++ [strip buffer] else clauses.

Definition segment_from (acc : list str * str) (raw : list str) : list str :=
  flush (fold_left step raw acc).

Definition segment (raw : list str) : list str := segment_from ([], []) raw.

(** Lines 15-32 on the page texts. *)
Definition clauses_of_pages (pages : list str) : list str :=
  segment (raw_clauses (split_nl (join [10%N] pages))).

End Segmenter.

(** ** Progress percentage ([utils.py], line 38)

    [int((i + 1) / len(clauses) * 100)] is computed in binary64.  Python's
    [int / int] is the float nearest to the exact quotient, which is what
    [SFdiv] computes from the two integers taken as exact mantissas; the
    product with [100] is rounded once more and [int] truncates. *)

Module Float.

Definition of_int (z : Z) : spec_float :=
  match z with
  | Z0 => S754_zero false
  | Zpos p => S754_finite false p 0
  | Zneg p => S754_finite true p 0
  end.

Definition truediv (a b : Z) : spec_float :=
  SFdiv 53 1024 (of_int a) (of_int b).

Definition mul (x y : spec_float) : spec_float := SFmul 53 1024 x y.

(** [int(x)]: truncation towards zero (infinities and NaN, on which Python
    raises, do not arise from a division by a positive length). *)
Definition to_int (x : spec_float) : Z :=
  match x with
  | S754_finite s m e =>
      let v := match e with
               | Zneg k => Z.shiftr (Zpos m) (Zpos k)
               | _ => Z.shiftl (Zpos m) e
               end in
      if s then - v else v
  | _ => 0
  end.

End Float.

Definition progress_value (i n : nat) : Z :=
  Float.to_int (Float.mul (Float.truediv (Z.of_nat (i + 1)) (Z.of_nat n))
                          (Float.of_int 100)).

(** ** JSON values, exceptions, results *)

(** What [json.loads] returns; a number keeps its literal. *)
#[local] Unset Elimination Schemes.
Inductive json :=
  | JNull
  | JBool (b : bool)
  | JNum (lit : str)
  | JStr (s : str)
  | JArr (items : list json)
  | JObj (fields : gmap str json).
#[local] Set Elimination Schemes.

(** A raised exception: its class name and [str(e)]. *)
Record exn := Exn { exn_class : str; exn_str : str }.

Inductive result (A : Type) :=
  | Ok (a : A)
  | Raise (e : exn).
Arguments Ok {A} a.
Arguments Raise {A} e.

Definition TypeError (msg : string) : exn := Exn (py "TypeError") (py msg).
Definition AttributeError (msg : string) : exn := Exn (py "AttributeError") (py msg).
Definition IndexError (msg : string) : exn := Exn (py "IndexError") (py msg).
(** [str(KeyError(k))] is [repr(k)]. *)
Definition KeyError (k : string) : exn :=
  Exn (py "KeyError") (py "'" ++ py k ++ py "'").

Definition is_float_literal (lit : str) : bool :=
  existsb (fun c => (c =? 46) || (c =? 101) || (c =? 69))%N lit.

(** [type(v).__name__] *)
Definition type_name (v : json) : str :=
  match v with
  | JNull => py "NoneType"
  | JBool _ => py "bool"
  | JNum lit => if is_float_literal lit then py "float" else py "int"
  | JStr _ => py "str"
  | JArr _ => py "list"
  | JObj _ => py "dict"
  end.

Definition is_JStr (k : str) (v : json) : bool :=
  match v with
  | JStr s => bool_decide (s = k)
  | _ => false
  end.

(** [key in v] for a text [key] *)
Definition py_in (key : str) (v : json) : result bool :=
  match v with
  | JObj m => Ok (bool_decide (is_Some (m !! key)))
  | JArr l => Ok (existsb (is_JStr key) l)
  | JStr s => Ok (contains s key)
  | _ => Raise (Exn (py "TypeError")
                    (py "argument of type '" ++ type_name v ++ py "' is not iterable"))
  end.

(** [v[key] = x] for a text [key] *)
Definition py_setitem (v : json) (key : str) (x : json) : result json :=
  match v with
  | JObj m => Ok (JObj (<[key := x]> m))
  | JArr _ => Raise (TypeError "list indices must be integers or slices, not str")
  | _ => Raise (Exn (py "TypeError")
                    (py "'" ++ type_name v ++ py "' object does not support item assignment"))
  end.

(** [v[key]] for a text [key] *)
Definition py_getitem (v : json) (key : string) : result json :=
  match v with
  | JObj m => match m !! py key with
              | Some x => Ok x
              | None => Raise (KeyError key)
              end
  | JArr _ => Raise (TypeError "list indices must be integers or slices, not str")
  | JStr _ => Raise (TypeError "string indices must be integers, not 'str'")
  | _ => Raise (Exn (py "TypeError")
                    (py "'" ++ type_name v ++ py "' object is not subscriptable"))
  end.

(** [v.get(key, default)] *)
Definition py_get (v : json) (key : string) (default : json) : result json :=
  match v with
  | JObj m => Ok (match m !! py key with Some x => x | None => default end)
  | _ => Raise (Exn (py "AttributeError")
                    (py "'" ++ type_name v ++ py "' object has no attribute 'get'"))
  end.

(** ** The store, the process state and the outside world *)

Record Document := { doc_id : nat; doc_name : str; doc_file_path : str }.
Record Clause := { clause_id : nat; clause_document : nat; clause_text : str }.
Record Query := { query_id : nat; query_text : json; parsed_data : json }.
Record Decision := {
  decision_id : nat;
  decision_query : nat;
  decision_status : json;
  amount : json;
  justification : json;
  referenced_clauses : json
}.

(** A table keeps its rows in primary-key order, which is also the order
    of creation ([upload_date] and [created_at] are not kept apart). *)
Record table (A : Type) := Table { rows : list A; next_pk : nat }.
Arguments Table {A} rows next_pk.
Arguments rows {A} t.
Arguments next_pk {A} t.

Definition insert_row {A} (mk : nat -> A) (t : table A) : A * table A :=
  let r := mk (next_pk t) in (r, Table (rows t ++ [r]) (S (next_pk t))).

Record db := {
  documents : table Document;
  clauses : table Clause;
  queries : table Query;
  decisions : table Decision
}.

Abbreviation vec := (list Z).

Record uploaded_file := { file_name : str; file_bytes : str }.

Record state := {
  store : db;
  faiss_index : option (list vec);   (* the vectors of [IndexFlatL2], [None] for Python's [None] *)
  clause_texts : list str;
  cache : gmap str Z;
  uuid_count : nat;
  threads : list (uploaded_file * str)  (* started background threads, not yet run *)
}.

Definition set_store (f : db -> db) (st : state) : state :=
  {| store := f (store st); faiss_index := faiss_index st;
     clause_texts := clause_texts st; cache := cache st;
     uuid_count := uuid_count st; threads := threads st |}.
Definition set_faiss_index (x : option (list vec)) (st : state) : state :=
  {| store := store st; faiss_index := x;
     clause_texts := clause_texts st; cache := cache st;
     uuid_count := uuid_count st; threads := threads st |}.
Definition set_clause_texts (x : list str) (st : state) : state :=
  {| store := store st; faiss_index := faiss_index st;
     clause_texts := x; cache := cache st;
     uuid_count := uuid_count st; threads := threads st |}.
Definition set_cache (f : gmap str Z -> gmap str Z) (st : state) : state :=
  {| store := store st; faiss_index := faiss_index st;
     clause_texts := clause_texts st; cache := f (cache st);
     uuid_count := uuid_count st; threads := threads st |}.
Definition set_uuid_count (n : nat) (st : state) : state :=
  {| store := store st; faiss_index := faiss_index st;
     clause_texts := clause_texts st; cache := cache st;
     uuid_count := n; threads := threads st |}.
Definition set_threads (x : list (uploaded_file * str)) (st : state) : state :=
  {| store := store st; faiss_index := faiss_index st;
     clause_texts := clause_texts st; cache := cache st;
     uuid_count := uuid_count st; threads := x |}.

Definition set_documents (t : table Document) (d : db) : db :=
  {| documents := t; clauses := clauses d; queries := queries d; decisions := decisions d |}.
Definition set_clauses (t : table Clause) (d : db) : db :=
  {| documents := documents d; clauses := t; queries := queries d; decisions := decisions d |}.
Definition set_queries (t : table Query) (d : db) : db :=
  {| documents := documents d; clauses := clauses d; queries := t; decisions := decisions d |}.
Definition set_decisions (t : table Decision) (d : db) : db :=
  {| documents := documents d; clauses := clauses d; queries := queries d; decisions := t |}.

(** The two prompts are f-strings over these values. *)
Inductive prompt :=
  | ParsePrompt (query_text : json)
  | DecisionPrompt (query_text : json) (matched_clauses_texts : list str).

(** The collaborators the views call: settings, [json.loads], the Gemini
    model, the sentence encoder, PyMuPDF, [uuid.uuid4] and the constraints
    the store puts on the rows it is given. *)
Record World := {
  GEMINI_API_KEY : option str;                  (* [None]: the setting is not defined *)
  json_loads : str -> option json;              (* [None]: [JSONDecodeError] *)
  generate_content : prompt -> result str;      (* [model.generate_content(p).text] *)
  embedding_model_encode : json -> result vec;  (* [embedding_model.encode] on one text *)
  get_text : str -> result (list str);          (* [fitz.open] and [page.get_text] per page *)
  uuid4 : nat -> str;                           (* the n-th identifier drawn *)
  query_check : json -> option exn;             (* what the store raises on a Query with this text *)
  decision_check : json -> json -> json -> json -> option exn
    (* what the store raises on a Decision with this status, amount,
       justification and referenced clauses *)
}.

(** ** State and exceptions *)

Definition M (A : Type) : Type := state -> state * result A.

#[export] Instance M_ret : MRet M := fun A a st => (st, Ok a).
#[export] Instance M_bind : MBind M := fun A B f m st =>
  match m st with
  | (st', Ok a) => f a st'
  | (st', Raise e) => (st', Raise e)
  end.

Definition raise {A} (e : exn) : M A := fun st => (st, Raise e).
Definition lift {A} (r : result A) : M A := fun st => (st, r).
Definition get_state : M state := fun st => (st, Ok st).
Definition modify (f : state -> state) : M unit := fun st => (f st, Ok tt).

(** [try: body  except Exception as e: handler] *)
Definition try_except {A} (body : M A) (handler : exn -> M A) : M A := fun st =>
  match body st with
  | (st', Ok a) => (st', Ok a)
  | (st', Raise e) => handler e st'
  end.

(** [for x in xs: acc = f(acc, x)] *)
Fixpoint for_each {A B} (f : B -> A -> M B) (acc : B) (xs : list A) : M B :=
  match xs with
  | [] => mret acc
  | x :: xs' => acc' ← f acc x; for_each f acc' xs'
  end.

Fixpoint map_result {A B} (f : A -> result B) (xs : list A) : result (list B) :=
  match xs with
  | [] => Ok []
  | x :: xs' =>
      match f x with
      | Raise e => Raise e
      | Ok y => match map_result f xs' with
                | Raise e => Raise e
                | Ok ys => Ok (y :: ys)
                end
      end
  end.

(** ** HTTP *)

Record request := {
  method : str;
  body : str;
  FILES_document : option uploaded_file
}.

Record response := { status_code : Z; content : json }.

(** [JsonResponse(data, status=...)] with the default [safe=True] *)
Definition JsonResponse (data : json) (status : Z) : M response :=
  match data with
  | JObj _ => mret {| status_code := status; content := data |}
  | _ => raise (TypeError "In order to allow non-dict objects to be serialized set the safe parameter to False.")
  end.

Definition dict (kvs : list (str * json)) : json := JObj (list_to_map kvs).

(** ** The flat L2 index

    [faiss.IndexFlatL2] is a library; what [semantic_search] relies on is
    written out here: an exhaustive scan by squared Euclidean distance,
    labels in ascending distance with the lower label first among equals,
    and the label [-1] in every slot for which no vector is left.  Vector
    components are integers, standing in for float32. *)

Module Faiss.

Fixpoint l2sq (a b : vec) : Z :=
  match a, b with
  | x :: a', y :: b' => (x - y) * (x - y) + l2sq a' b'
  | _, _ => 0
  end.

Definition hit_leb (h1 h2 : Z * nat) : bool :=
  (fst h1 <? fst h2) || ((fst h1 =? fst h2) && (snd h1 <=? snd h2)%nat).

Fixpoint insert_hit (h : Z * nat) (hs : list (Z * nat)) : list (Z * nat) :=
  match hs with
  | [] => [h]
  | h' :: hs' => if hit_leb h h' then h :: hs else h' :: insert_hit h hs'
  end.

Definition sort_hits (hs : list (Z * nat)) : list (Z * nat) :=
  List.fold_right insert_hit [] hs.

Definition hits (index : list vec) (query_vec : vec) : list (Z * nat) :=
  sort_hits (imap (fun i v => (l2sq query_vec v, i)) index).

(** The distance reported in a slot without a vector (the largest float32). *)
Definition no_distance : Z := 340282346638528859811704183484516925440.

(** [index.search(query_vec, k)]: one row of [(distances, indices)]. *)
Definition search (index : list vec) (query_vec : vec) (k : nat) : list (Z * Z) :=
  let found := List.map (fun h => (fst h, Z.of_nat (snd h))) (take k (hits index query_vec)) in
  found ++ List.repeat (no_distance, -1) (k - length found).

End Faiss.

(** [xs[i]] with Python's negative indices *)
Definition py_index {A} (xs : list A) (i : Z) : result A :=
  let n := Z.of_nat (length xs) in
  let j := if i <? 0 then i + n else i in
  if (0 <=? j) && (j <? n)
  then match xs !! Z.to_nat j with
       | Some x => Ok x
       | None => Raise (IndexError "list index out of range")
       end
  else Raise (IndexError "list index out of range").

(** ASCII case folding, as the store's [LIKE] does for [icontains]. *)
Definition lower (c : N) : N :=
  if ((65 <=? c) && (c <=? 90))%N then (c + 32)%N else c.

Definition icontains (text snippet : str) : bool :=
  contains (List.map lower text) (List.map lower snippet).

Section Views.

Context (w : World).

(** *** [build_faiss_index] and [semantic_search] ([views.py], lines 26-59) *)

Definition build_faiss_index : M unit :=
  st ← get_state;
  let texts := List.map clause_text (rows (clauses (store st))) in
  modify (set_clause_texts texts);;
  if negb (nonempty texts)
  then modify (set_faiss_index None)
  else
    embeddings ← lift (map_result (fun c => embedding_model_encode w (JStr c)) texts);
    modify (set_faiss_index (Some embeddings)).

(** Lines 57-58, the body of [for idx in indices[0]], [snapshot] being
    the global [clause_texts]. *)
Definition append_clause (snapshot results : list str) (idx : Z) : M (list str) :=
  if idx <? Z.of_nat (length snapshot)
  then c ← lift (py_index snapshot idx); mret (results ++ [c])
  else mret results.

Definition semantic_search (query_text : json) (top_k : nat) : M (list str) :=
  st ← get_state;
  (if faiss_index st is None then build_faiss_index else mret tt);;
  st ← get_state;
  match faiss_index st with
  | None => mret []
  | Some index =>
      if (length (clause_texts st) =? 0)%nat then mret []
      else
        query_vec ← lift (embedding_model_encode w query_text);
        let indices := List.map snd (Faiss.search index query_vec top_k) in
        for_each (append_clause (clause_texts st)) [] indices
  end.

(** *** [extract_and_store_clauses] ([utils.py]) *)

Definition progress_key (task_id : str) : str := py "progress_" ++ task_id.

(** [cache.set(key, value, timeout=600)]; expiry is not modelled. *)
Definition cache_set (key : str) (value : Z) : M unit :=
  modify (set_cache (insert key value)).

Definition Document_create (name file_path : str) : M Document := fun st =>
  let '(doc, t) :=
    insert_row (fun pk => {| doc_id := pk; doc_name := name; doc_file_path := file_path |})
               (documents (store st)) in
  (set_store (set_documents t) st, Ok doc).

Definition Clause_create (doc : Document) (text : str) : M Clause := fun st =>
  let '(c, t) :=
    insert_row (fun pk => {| clause_id := pk; clause_document := doc_id doc; clause_text := text |})
               (clauses (store st)) in
  (set_store (set_clauses t) st, Ok c).

(** Python truth of [task_id]: neither [None] nor the empty text. *)
Definition truthy (task_id : option str) : option str :=
  match task_id with
  | Some (c :: t) => Some (c :: t)
  | _ => None
  end.

(** [for i, clause in enumerate(clauses)] from position [i] on, [n] being
    [len(clauses)]. *)
Fixpoint save_clauses (doc : Document) (task_id : option str) (n i : nat)
    (cls : list str) : M unit :=
  match cls with
  | [] => mret tt
  | clause :: rest =>
      Clause_create doc clause;;
      (if truthy task_id is Some t
       then cache_set (progress_key t) (progress_value i n)
       else mret tt);;
      save_clauses doc task_id n (S i) rest
  end.

Definition extract_and_store_clauses (file_obj : uploaded_file)
    (task_id : option str) : M (Document * nat) :=
  doc ← Document_create (file_name file_obj) (file_name file_obj);
  text_buffer ← lift (get_text w (file_bytes file_obj));
  let cls := Segmenter.clauses_of_pages text_buffer in
  save_clauses doc task_id (length cls) 0 cls;;
  mret (doc, length cls).

(** Runs in the background thread of [upload_document]. *)
Definition process_file (file_obj : uploaded_file) (task_id : str) : M unit :=
  extract_and_store_clauses file_obj (Some task_id);;
  build_faiss_index.

(** *** [upload_document] and [get_progress] ([views.py], lines 70-111) *)

Definition decimal (n : nat) : str := py (NilEmpty.string_of_uint (Nat.to_uint n)).

(** [Document.objects.order_by('-upload_date')[:5]] as the list sent back;
    the formatted date of each entry is left out. *)
Definition latest_docs : M json :=
  st ← get_state;
  mret (JArr (List.map
                (fun d => dict [(py "id", JNum (decimal (doc_id d))); (py "name", JStr (doc_name d))])
                (take 5 (rev (rows (documents (store st))))))).

Definition duplicate_message (name : str) : str :=
  [9888; 65039]%N ++ py " File '" ++ name ++ py "' already uploaded. Please use it from the list.".

Definition fresh_uuid : M str := fun st =>
  (set_uuid_count (S (uuid_count st)) st, Ok (uuid4 w (uuid_count st))).

Definition upload_document (request : request) : M response :=
  if bool_decide (method request = py "POST") then
    file_obj ← match FILES_document request with
                | Some f => mret f
                | None => raise (Exn (py "MultiValueDictKeyError") (py "'document'"))
                end;
    st ← get_state;
    if existsb (fun d => bool_decide (doc_name d = file_name file_obj))
               (rows (documents (store st)))
    then JsonResponse (dict [(py "error", JStr (duplicate_message (file_name file_obj)))]) 400
    else
      task_id ← fresh_uuid;
      cache_set (progress_key task_id) 0;;
      st ← get_state;
      modify (set_threads (threads st ++ [(file_obj, task_id)]));;
      docs ← latest_docs;
      JsonResponse (dict [(py "task_id", JStr task_id); (py "latest_docs", docs)]) 200
  else JsonResponse (dict [(py "error", JStr (py "Invalid request"))]) 400.

(** The scheduler lets the oldest started thread run to its end; what it
    raises is lost with the thread. *)
Definition run_thread : M unit := fun st =>
  match threads st with
  | [] => (st, Ok tt)
  | (file_obj, task_id) :: rest =>
      (fst (process_file file_obj task_id (set_threads rest st)), Ok tt)
  end.

Definition get_progress (task_id : str) : M response :=
  st ← get_state;
  let progress := match cache st !! progress_key task_id with Some p => p | None => 0 end in
  JsonResponse (dict [(py "progress", JNum (py (NilEmpty.string_of_int (Z.to_int progress))))]) 200.

(** *** [process_query] ([views.py], lines 149-255) *)

Definition Query_create (text : json) : M Query := fun st =>
  match query_check w text with
  | Some e => (st, Raise e)
  | None =>
      let '(q, t) :=
        insert_row (fun pk => {| query_id := pk; query_text := text; parsed_data := JNull |})
                   (queries (store st)) in
      (set_store (set_queries t) st, Ok q)
  end.

(** [q.save()] *)
Definition Query_save (q : Query) : M unit :=
  modify (set_store (fun d =>
    set_queries (Table (List.map (fun r => if (query_id r =? query_id q)%nat then q else r)
                                 (rows (queries d)))
                       (next_pk (queries d))) d)).

Definition Decision_create (q : Query) (status amt just refs : json) : M Decision := fun st =>
  match decision_check w status amt just refs with
  | Some e => (st, Raise e)
  | None =>
      let '(d, t) :=
        insert_row (fun pk => {| decision_id := pk; decision_query := query_id q;
                                 decision_status := status; amount := amt;
                                 justification := just; referenced_clauses := refs |})
                   (decisions (store st)) in
      (set_store (set_decisions t) st, Ok d)
  end.

(** Lines 160-161: the client is set up from [settings.GEMINI_API_KEY]. *)
Definition configure : M unit :=
  match GEMINI_API_KEY w with
  | Some _ => mret tt
  | None => raise (AttributeError "'Settings' object has no attribute 'GEMINI_API_KEY'")
  end.

Definition fence : str := py "```".

(** Lines 171-172 and 216-217 *)
Definition strip_fence (res : str) : str :=
  if startswith res fence
  then strip (replace (replace res (py "```json") []) fence [])
  else res.

(** Lines 165-180 *)
Definition parse_query (q : Query) (text : json) : M unit :=
  res ← lift (generate_content w (ParsePrompt text));
  let parsed_res := strip_fence (strip res) in
  let parsed := match json_loads w parsed_res with
                | Some v => v
                | None => dict []
                end in
  Query_save {| query_id := query_id q; query_text := query_text q; parsed_data := parsed |}.

(** [Clause.objects.filter(clause_text__icontains=snippet).first()] *)
Definition first_icontains (cls : list Clause) (snippet : str) : option Clause :=
  List.find (fun c => icontains (clause_text c) snippet) cls.

(** Lines 185-192 *)
Definition matched_clauses_texts (cls : list Clause) (snippets : list str) : list str :=
  let matched :=
    fold_left (fun acc snippet =>
                 match first_icontains cls snippet with
                 | Some clause_obj => acc ++ [clause_text clause_obj]
                 | None => acc
                 end) snippets [] in
  if nonempty matched then matched else snippets.

(** Lines 183-192 *)
Definition retrieve (text : json) : M (list str) :=
  snippets ← semantic_search text 5;
  st ← get_state;
  mret (matched_clauses_texts (rows (clauses (store st))) snippets).

Definition needs_review : json := JStr (py "Needs Review").
Definition texts (l : list str) : json := JArr (List.map JStr l).

(** Lines 195-245 *)
Definition decision_engine (q : Query) (text : json) (matched : list str) : M response :=
  res ← lift (generate_content w (DecisionPrompt text matched));
  let decision_res := strip_fence (strip res) in
  let loaded := match json_loads w decision_res with
                | Some v => v
                | None => dict [(py "decision", needs_review);
                                (py "amount", JNull);
                                (py "justification", JStr (py "Gemini returned invalid output."));
                                (py "referenced_clauses", texts matched)]
                end in
  present ← lift (py_in (py "decision") loaded);
  decision_data ←
    (if (present : bool) then mret loaded
     else
       d ← lift (py_setitem loaded (py "decision") needs_review);
       d ← lift (py_setitem d (py "amount") JNull);
       d ← lift (py_setitem d (py "justification") (JStr (py "Insufficient data to decide.")));
       lift (py_setitem d (py "referenced_clauses") (texts matched)));
  status ← lift (py_getitem decision_data "decision");
  amt ← lift (py_get decision_data "amount" JNull);
  just ← lift (py_getitem decision_data "justification");
  refs ← lift (py_get decision_data "referenced_clauses" (texts matched));
  Decision_create q status amt just refs;;
  JsonResponse decision_data 200.

(** The body of the [try] *)
Definition pipeline (q : Query) (text : json) : M response :=
  parse_query q text;;
  matched ← retrieve text;
  decision_engine q text matched.

(** The [except Exception as e] branch *)
Definition error_response (e : exn) : M response :=
  JsonResponse (dict [(py "decision", needs_review);
                      (py "amount", JNull);
                      (py "justification", JStr ([10060%N] ++ py " Error: " ++ exn_str e));
                      (py "referenced_clauses", JArr [])]) 500.

Definition process_query (request : request) : M response :=
  if bool_decide (method request = py "POST") then
    data ← match json_loads w (body request) with
            | Some v => mret v
            | None => raise (Exn (py "JSONDecodeError") (py "Expecting value"))
            end;
    text ← lift (py_get data "query" JNull);
    q ← Query_create text;
    configure;;
    try_except (pipeline q text) error_response
  else JsonResponse (dict [(py "error", JStr (py "Invalid request"))]) 400.

End Views.

(** * Properties *)

(** ** Text *)

Lemma lstrip_head (s : str) :
  lstrip s = [] \/ exists c t, lstrip s = c :: t /\ isspace c = false.
Proof.
  induction s as [|c s IH]; simpl; [now left|].
  destruct (isspace c) eqn:E; [exact IH|].
  right. now exists c, s.
Qed.

Lemma rstrip_idem (s : str) : rstrip (rstrip s) = rstrip s.
Proof.
  induction s as [|c s IH]; simpl; [reflexivity|].
  destruct (isspace c && negb (nonempty (rstrip s))) eqn:E; [reflexivity|].
  simpl. rewrite IH, E. reflexivity.
Qed.

Lemma rstrip_cons_nonspace (c : N) (s : str) :
  isspace c = false -> rstrip (c :: s) = c :: rstrip s.
Proof. intros E. simpl. now rewrite E. Qed.

Lemma rstrip_app (a b : str) :
  rstrip b = b -> b <> [] -> rstrip (a ++ b) = a ++ b.
Proof.
  intros Hb Hne. induction a as [|c a IH]; simpl; [exact Hb|].
  rewrite IH. destruct (a ++ b) eqn:E.
  - now destruct a, b.
  - simpl. now rewrite andb_false_r.
Qed.

(** [rstrip] is [lstrip] seen from the other end. *)
Lemma lstrip_snoc (a : str) (c : N) :
  lstrip (a ++ [c])
  = if nonempty (lstrip a) then lstrip a ++ [c]
    else if isspace c then [] else [c].
Proof.
  induction a as [|d a IH]; simpl; [now destruct (isspace c)|].
  destruct (isspace d); [exact IH | reflexivity].
Qed.

Lemma rstrip_rev (s : str) : rstrip s = rev (lstrip (rev s)).
Proof.
  induction s as [|c s IH]; [reflexivity|].
  cbn [rstrip rev]. rewrite lstrip_snoc, IH.
  destruct (lstrip (rev s)) as [|d t] eqn:E.
  - cbn. now destruct (isspace c).
  - replace (nonempty (rev (d :: t))) with true.
    + rewrite andb_false_r. cbn [nonempty]. now rewrite rev_unit.
    + destruct (rev (d :: t)) eqn:E'; [|reflexivity].
      apply (f_equal (@length N)) in E'. rewrite length_rev in E'. discriminate.
Qed.

(** A line as [raw_clauses] leaves it: not empty, no white space at either
    end. *)
Definition trimmed (s : str) : Prop :=
  s <> [] /\ lstrip s = s /\ rstrip s = s.

Lemma strip_trimmed (p : str) : nonempty (strip p) = true -> trimmed (strip p).
Proof.
  unfold strip. intros Hne. split; [|split].
  - intros E. now rewrite E in Hne.
  - destruct (lstrip_head p) as [E | (c & t & E & Hc)]; rewrite E in *.
    + reflexivity.
    + rewrite rstrip_cons_nonspace by exact Hc. simpl. now rewrite Hc.
  - apply rstrip_idem.
Qed.

Lemma trimmed_head (s : str) :
  trimmed s -> exists c t, s = c :: t /\ isspace c = false.
Proof.
  intros (Hne & Hl & _). destruct s as [|c t]; [congruence|].
  exists c, t. split; [reflexivity|].
  simpl in Hl. destruct (isspace c) eqn:E; [|reflexivity].
  exfalso. clear Hne. revert c E Hl. induction t as [|d t IH]; intros c E Hl.
  - discriminate.
  - simpl in Hl. destruct (isspace d) eqn:Ed.
    + destruct (lstrip_head t) as [E0 | (x & u & E0 & Hx)].
      * rewrite E0 in Hl. discriminate.
      * assert (Hlen : length (lstrip t) = length (c :: d :: t)) by now rewrite Hl.
        clear -Hlen. assert (length (lstrip t) <= length t)%nat.
        { clear. induction t as [|a t IH]; simpl; [lia|].
          destruct (isspace a); simpl; lia. }
        simpl in Hlen. lia.
    + injection Hl as Hc _. congruence.
Qed.

Lemma join_cons (sep l : str) (ps : list str) :
  join sep (l :: ps) = l ++ concat (List.map (fun p => sep ++ p) ps).
Proof.
  revert l. induction ps as [|p ps IH]; intros l.
  - simpl. now rewrite app_nil_r.
  - change (join sep (l :: p :: ps)) with (l ++ sep ++ join sep (p :: ps)).
    rewrite IH. simpl. now rewrite <- app_assoc.
Qed.

Lemma rstrip_joined (sep l : str) (ps : list str) :
  Forall trimmed (l :: ps) ->
  rstrip (l ++ concat (List.map (fun p => sep ++ p) ps))
  = l ++ concat (List.map (fun p => sep ++ p) ps).
Proof.
  revert l. induction ps as [|p ps IH]; intros l H.
  - simpl. rewrite app_nil_r. inversion H as [|? ? (_ & _ & Hr) _]. exact Hr.
  - simpl. inversion H as [|? ? _ Hps]; subst.
    rewrite <- app_assoc, app_assoc.
    apply rstrip_app; [now apply IH|].
    inversion Hps as [|? ? (Hne & _) _]; subst.
    destruct p; [congruence|discriminate].
Qed.

(** The buffer of short lines, once stripped, is the lines joined by
    single spaces. *)
Lemma strip_buffer (l : str) (ps : list str) :
  Forall trimmed (l :: ps) ->
  strip (concat (List.map (fun p => py " " ++ p) (l :: ps))) = join (py " ") (l :: ps).
Proof.
  intros H. rewrite join_cons. unfold strip.
  assert (Hl : trimmed l) by now inversion H.
  destruct (trimmed_head l Hl) as (c & t & -> & Hc).
  change (lstrip (concat (List.map (fun p => py " " ++ p) ((c :: t) :: ps))))
    with (if isspace c then lstrip (t ++ concat (List.map (fun p => py " " ++ p) ps))
          else (c :: t) ++ concat (List.map (fun p => py " " ++ p) ps)).
  rewrite Hc. now apply rstrip_joined.
Qed.

(** ** The segmenter *)

(** The buffer holding the short lines [pending]. *)
Definition buffer_of (pending : list str) : str :=
  concat (List.map (fun p => py " " ++ p) pending).

Lemma buffer_of_snoc (pending : list str) (line : str) :
  buffer_of (pending ++ [line]) = buffer_of pending ++ py " " ++ line.
Proof.
  unfold buffer_of. rewrite List.map_app, concat_app. simpl.
  now rewrite app_nil_r.
Qed.

Lemma nonempty_buffer_of (pending : list str) :
  nonempty (buffer_of pending) = nonempty pending.
Proof. now destruct pending. Qed.

Lemma strip_buffer_of (pending : list str) :
  pending <> [] -> Forall trimmed pending ->
  strip (buffer_of pending) = join (py " ") pending.
Proof.
  destruct pending as [|l ps]; [congruence|].
  intros _ H. now apply strip_buffer.
Qed.

(** The loop keeps the clauses emitted so far as joined groups of lines,
    and the buffer as the group still open. *)
Lemma segment_loop (raw : list str) :
  Forall trimmed raw ->
  forall done pending : _,
    Forall trimmed pending ->
    Forall (fun g => exists l ps, g = l :: ps /\ trimmed l) done ->
    exists done' pending',
      fold_left Segmenter.step raw (List.map (join (py " ")) done, buffer_of pending)
      = (List.map (join (py " ")) done', buffer_of pending') /\
      concat done' ++ pending' = (concat done ++ pending) ++ raw /\
      Forall trimmed pending' /\
      Forall (fun g => exists l ps, g = l :: ps /\ trimmed l) done'.
Proof.
  induction 1 as [|line raw Hline Hraw IH]; intros done pending Hp Hd.
  - exists done, pending. now rewrite app_nil_r.
  - cbn [fold_left]. unfold Segmenter.step at 2.
    destruct (Z.of_nat (length line) <? 40) eqn:Hshort.
    + rewrite <- buffer_of_snoc.
      destruct (IH done (pending ++ [line])) as (d' & p' & E & Hc & Hp' & Hd');
        [apply Forall_app; split; [exact Hp | now constructor] | exact Hd |].
      exists d', p'. repeat split; try assumption.
      rewrite Hc. now rewrite <- !app_assoc.
    + rewrite nonempty_buffer_of. destruct pending as [|l ps].
      * cbn [nonempty].
        destruct (IH (done ++ [[line]]) []) as (d' & p' & E & Hc & Hp' & Hd').
        { constructor. }
        { apply Forall_app; split; [exact Hd|]. constructor; [|constructor].
          now exists line, []. }
        exists d', p'. repeat split; try assumption.
        -- rewrite <- E. now rewrite List.map_app.
        -- rewrite Hc, concat_app. simpl. now rewrite ?app_nil_r, <- ?app_assoc.
      * cbn [nonempty]. rewrite strip_buffer_of by (congruence || assumption).
        destruct (IH ((done ++ [l :: ps]) ++ [[line]]) []) as (d' & p' & E & Hc & Hp' & Hd').
        { constructor. }
        { repeat (apply Forall_app; split); [exact Hd | |].
          - constructor; [|constructor]. exists l, ps. split; [reflexivity|].
            now inversion Hp.
          - constructor; [|constructor]. now exists line, []. }
        exists d', p'. repeat split; try assumption.
        -- rewrite <- E. now rewrite !List.map_app.
        -- rewrite Hc, !concat_app. simpl. now rewrite ?app_nil_r, <- ?app_assoc.
Qed.

Lemma raw_clauses_trimmed (lines : list str) :
  Forall trimmed (Segmenter.raw_clauses lines).
Proof.
  unfold Segmenter.raw_clauses. induction lines as [|p lines IH]; simpl; [constructor|].
  destruct (nonempty (strip p)) eqn:E; [|exact IH].
  simpl. constructor; [now apply strip_trimmed | exact IH].
Qed.

Lemma join_group_nonempty (g : list str) :
  (exists l ps, g = l :: ps /\ trimmed l) -> join (py " ") g <> [].
Proof.
  intros (l & ps & -> & Hne & _). rewrite join_cons.
  destruct l; [congruence | discriminate].
Qed.

(** C7: for every input line sequence, the emitted clauses are the trimmed,
    non-empty lines of the input, in order, cut into consecutive groups and
    each group joined by single spaces; so dropping those separators and
    concatenating gives back exactly the concatenation of the trimmed,
    non-empty lines.  No emitted clause is the empty string. *)
Theorem segment_reproduces_lines (lines : list str) :
  exists groups : list (list str),
    Segmenter.segment (Segmenter.raw_clauses lines) = List.map (join (py " ")) groups /\
    concat groups = Segmenter.raw_clauses lines /\
    concat (concat groups) = concat (Segmenter.raw_clauses lines) /\
    Forall (fun clause => clause <> []) (Segmenter.segment (Segmenter.raw_clauses lines)).
Proof.
  pose proof (raw_clauses_trimmed lines) as Hraw.
  destruct (segment_loop _ Hraw [] []) as (done & pending & E & Hc & Hp & Hd);
    [constructor | constructor |].
  unfold Segmenter.segment, Segmenter.segment_from.
  change (([] : list str), ([] : str))
    with (List.map (join (py " ")) [], buffer_of []).
  rewrite E. unfold Segmenter.flush. rewrite nonempty_buffer_of.
  simpl in Hc.
  assert (Hall : forall gs, Forall (fun g => exists l ps, g = l :: ps /\ trimmed l) gs ->
                            Forall (fun clause => clause <> []) (List.map (join (py " ")) gs)).
  { intros gs H. apply Forall_map. eapply Forall_impl; [exact H|].
    intros g Hg. now apply join_group_nonempty. }
  destruct pending as [|l ps].
  - exists done. cbn [nonempty]. rewrite app_nil_r in Hc.
    repeat split; [exact Hc | now rewrite Hc | now apply Hall].
  - exists (done ++ [l :: ps]). cbn [nonempty].
    rewrite strip_buffer_of by (congruence || assumption).
    assert (Hg : Forall (fun g => exists l ps, g = l :: ps /\ trimmed l) (done ++ [l :: ps])).
    { apply Forall_app; split; [exact Hd|]. constructor; [|constructor].
      exists l, ps. split; [reflexivity | now inversion Hp]. }
    assert (Hcc : concat (done ++ [l :: ps]) = Segmenter.raw_clauses lines).
    { rewrite concat_app. simpl. rewrite app_nil_r. exact Hc. }
    repeat split.
    + now rewrite List.map_app.
    + exact Hcc.
    + now rewrite Hcc.
    + specialize (Hall _ Hg). now rewrite List.map_app in Hall.
Qed.

Definition section_lines : list str :=
  [py "Section 1"; py "a"; py "b"; py "Section 2 full clause text here ok"].

(** The last line of [section_lines] has 34 characters, below the
    threshold of 40, so it is merged like the others. *)
Lemma segment_section_lines_not_two :
  Segmenter.segment (Segmenter.raw_clauses section_lines)
  <> [py "Section 1 a b"; py "Section 2 full clause text here ok"].
Proof. vm_compute. discriminate. Qed.

(** C2 (as the code has it): the segmenter applied to the lines
    "Section 1", "a", "b", "Section 2 full clause text here ok" returns
    exactly one clause, the four lines joined by single spaces. *)
Theorem segment_section_lines :
  Segmenter.segment (Segmenter.raw_clauses section_lines)
  = [py "Section 1 a b Section 2 full clause text here ok"].
Proof. vm_compute. reflexivity. Qed.

(** ** Progress *)

Lemma div_eucl_shift_self (p : positive) :
  Z.div_eucl (Z.shiftl (Zpos p) 53) (Zpos p) = (9007199254740992, 0).
Proof.
  rewrite Z.shiftl_mul_pow2 by lia.
  pose proof (Z.div_mul (2 ^ 53) (Zpos p) ltac:(lia)) as Hq.
  pose proof (Z.mod_mul (2 ^ 53) (Zpos p) ltac:(lia)) as Hr.
  unfold Z.div, Z.modulo in Hq, Hr.
  rewrite (Z.mul_comm (Zpos p)).
  destruct (Z.div_eucl (2 ^ 53 * Zpos p) (Zpos p)) as [q r].
  simpl in Hq, Hr. subst. reflexivity.
Qed.

(** A positive integer divided by itself is exactly [1.0]. *)
Lemma truediv_self (p : positive) :
  Float.truediv (Zpos p) (Zpos p) = S754_finite false 4503599627370496 (-52).
Proof.
  unfold Float.truediv, Float.of_int, SFdiv, SFdiv_core_binary.
  cbn [Zdigits2]. rewrite !Z.add_0_r, !Z.sub_diag.
  change (IntDef.Z.min (fexp 53 1024 0) 0) with (-53).
  change (0 - -53) with 53.
  cbv iota. rewrite div_eucl_shift_self.
  unfold new_location, new_location_even, new_location_odd.
  destruct (Z.even (Zpos p)); vm_compute; reflexivity.
Qed.

(** The quotient is rounded before it is scaled: 29 of 100 clauses show
    as 28 per cent. *)
Example progress_value_29_of_100 : progress_value 28 100 = 28.
Proof. vm_compute. reflexivity. Qed.

Lemma progress_value_last (n : nat) : (1 <= n)%nat -> progress_value (n - 1) n = 100.
Proof.
  intros Hn. unfold progress_value.
  replace (n - 1 + 1)%nat with n by lia.
  destruct (Z.of_nat n) as [|p|p] eqn:E; try lia.
  rewrite truediv_self. vm_compute. reflexivity.
Qed.

Section Ingestion.

Context (w : World).

(** The loop never raises; it appends one row per clause and leaves in the
    cache the value written for the last one. *)
Lemma save_clauses_spec (doc : Document) (t : str) (n : nat) (cls : list str) :
  t <> [] ->
  forall (i : nat) (st : state),
  exists st',
    save_clauses doc (Some t) n i cls st = (st', Ok tt) /\
    length (rows (clauses (store st'))) = (length (rows (clauses (store st))) + length cls)%nat /\
    documents (store st') = documents (store st) /\
    (cls <> [] ->
     cache st' !! progress_key t = Some (progress_value (i + length cls - 1) n)).
Proof.
  intros Ht. induction cls as [|c cls IH]; intros i st.
  - exists st. repeat split; simpl; [lia | congruence].
  - destruct t as [|a t]; [congruence|].
    cbn [save_clauses truthy].
    unfold mbind, M_bind, Clause_create, insert_row, cache_set, modify.
    cbn beta iota.
    match goal with
    | |- context [save_clauses _ _ _ (S i) cls ?s] => destruct (IH (S i) s) as (st' & E & Hlen & Hdoc & Hcache)
    end.
    exists st'. rewrite E. split; [reflexivity|]. split; [|split].
    + rewrite Hlen. cbn. rewrite length_app. simpl. lia.
    + rewrite Hdoc. reflexivity.
    + intros _. destruct cls as [|c' cls'].
      * injection E as <-. cbn.
        replace (i + 1 - 1)%nat with i by lia. apply lookup_insert_eq.
      * rewrite Hcache by congruence. f_equal. f_equal. simpl. lia.
Qed.

(** C8: an ingestion that runs to completion with [n >= 1] clauses has
    appended [n] rows to the clause table, and the progress entry of its
    task, whose last write follows the [n]-th clause, holds exactly 100. *)
Theorem ingestion_progress_reaches_100
    (file_obj : uploaded_file) (task_id : str) (st st' : state) (doc : Document) (n : nat) :
  task_id <> [] ->
  extract_and_store_clauses w file_obj (Some task_id) st = (st', Ok (doc, n)) ->
  (1 <= n)%nat ->
  length (rows (clauses (store st'))) = (length (rows (clauses (store st))) + n)%nat /\
  cache st' !! progress_key task_id = Some 100.
Proof.
  intros Ht Hrun Hn. unfold extract_and_store_clauses in Hrun.
  unfold mbind, M_bind, mret, M_ret, Document_create, insert_row, lift in Hrun.
  cbn beta iota in Hrun.
  destruct (get_text w (file_bytes file_obj)) as [pages|e]; [|discriminate].
  match type of Hrun with
  | context [save_clauses ?d _ ?m 0 ?c ?s] =>
      destruct (save_clauses_spec d task_id m c Ht 0%nat s) as (s' & E & Hlen & _ & Hcache)
  end.
  rewrite E in Hrun. injection Hrun as <- <- <-.
  split; [exact Hlen|].
  rewrite Hcache.
  - simpl. now rewrite progress_value_last.
  - intros E0. rewrite E0 in Hn. simpl in Hn. lia.
Qed.

End Ingestion.

(** ** Clause resolution *)

(** The canonical text a snippet resolves to, if any. *)
Definition canonical (cls : list Clause) (snippet : str) : option str :=
  clause_text <$> first_icontains cls snippet.

Lemma resolve_loop (cls : list Clause) (snippets : list str) (acc : list str) :
  fold_left (fun acc snippet =>
               match first_icontains cls snippet with
               | Some clause_obj => acc ++ [clause_text clause_obj]
               | None => acc
               end) snippets acc
  = acc ++ omap (canonical cls) snippets.
Proof.
  revert acc. induction snippets as [|s snippets IH]; intros acc; simpl.
  - now rewrite app_nil_r.
  - rewrite IH. unfold canonical at 2.
    destruct (first_icontains cls s); simpl; [now rewrite <- app_assoc | reflexivity].
Qed.

Lemma omap_cons {A B} (f : A -> option B) (a : A) (l : list A) :
  omap f (a :: l) = match f a with Some b => b :: omap f l | None => omap f l end.
Proof. reflexivity. Qed.

Lemma length_omap_le {A B} (f : A -> option B) (l : list A) :
  (length (omap f l) <= length l)%nat.
Proof.
  induction l as [|a l IH]; [simpl; lia|].
  rewrite omap_cons. destruct (f a); simpl; lia.
Qed.

Lemma omap_all_some {A B} (f : A -> option B) (g : A -> B) (l : list A) :
  Forall (fun a => f a = Some (g a)) l -> omap f l = List.map g l.
Proof.
  induction 1 as [|a l Ha _ IH]; [reflexivity|].
  rewrite omap_cons, Ha, IH. reflexivity.
Qed.

Lemma omap_all_none {A B} (f : A -> option B) (l : list A) :
  Forall (fun a => f a = None) l -> omap f l = [].
Proof.
  induction 1 as [|a l Ha _ IH]; [reflexivity|]. now rewrite omap_cons, Ha.
Qed.

Definition two_clauses : list Clause :=
  [ {| clause_id := 1; clause_document := 1; clause_text := py "Claims must be filed within 30 days" |};
    {| clause_id := 2; clause_document := 1; clause_text := py "Waiting period is two years" |} ].

(** A snippet of the index that no stored clause contains any more is
    dropped when another snippet resolves: the list gets shorter. *)
Lemma unresolved_snippet_is_dropped :
  let snippets := [py "WAITING PERIOD"; py "Dental cover excluded"] in
  canonical two_clauses (py "Dental cover excluded") = None /\
  matched_clauses_texts two_clauses snippets = [py "Waiting period is two years"] /\
  matched_clauses_texts two_clauses snippets
  <> List.map (fun s => default s (canonical two_clauses s)) snippets /\
  length (matched_clauses_texts two_clauses snippets) <> length snippets.
Proof. vm_compute. repeat split; discriminate. Qed.

(** C1 (as the code has it): the resolved list is made of the canonical
    texts of the snippets that resolve, in retrieval order, each being the
    text of the first stored clause that contains the snippet up to case; a
    snippet that does not resolve contributes nothing when some snippet
    resolves, and only when none resolves is the raw snippet list used
    unmodified.  The list has at most one entry per retrieved snippet. *)
Theorem matched_clauses_texts_spec (cls : list Clause) (snippets : list str) :
  let resolved := omap (canonical cls) snippets in
  matched_clauses_texts cls snippets = (if nonempty resolved then resolved else snippets) /\
  (length (matched_clauses_texts cls snippets) <= length snippets)%nat.
Proof.
  intros resolved.
  assert (E : matched_clauses_texts cls snippets
              = if nonempty resolved then resolved else snippets).
  { unfold matched_clauses_texts. now rewrite resolve_loop. }
  split; [exact E|]. rewrite E.
  destruct (nonempty resolved); [apply length_omap_le | lia].
Qed.

(** When every snippet resolves, or none does, there is one entry per
    snippet. *)
Lemma matched_clauses_texts_all (cls : list Clause) (snippets : list str) :
  Forall (fun s => is_Some (canonical cls s)) snippets ->
  matched_clauses_texts cls snippets
  = List.map (fun s => default s (canonical cls s)) snippets.
Proof.
  intros Hall. unfold matched_clauses_texts. rewrite resolve_loop. cbn [app].
  rewrite (omap_all_some _ (fun s => default s (canonical cls s))).
  - destruct snippets; reflexivity.
  - eapply Forall_impl; [exact Hall|]. intros s [t Ht]. now rewrite Ht.
Qed.

Lemma matched_clauses_texts_none (cls : list Clause) (snippets : list str) :
  Forall (fun s => canonical cls s = None) snippets ->
  matched_clauses_texts cls snippets = snippets.
Proof.
  intros Hnone. unfold matched_clauses_texts. rewrite resolve_loop. cbn [app].
  now rewrite omap_all_none.
Qed.

(** ** The vector index *)

Section Search.

Context (w : World).

Lemma build_faiss_index_empty (st : state) :
  rows (clauses (store st)) = [] ->
  build_faiss_index w st = (set_faiss_index None (set_clause_texts [] st), Ok tt).
Proof.
  intros E. unfold build_faiss_index, mbind, M_bind, get_state, modify.
  rewrite E. reflexivity.
Qed.

(** C3 (as the code has it): search returns the empty list, for every query
    and every k, when the index is uninitialized and the clause store is
    empty, so that the rebuild search then attempts leaves it
    uninitialized, and when the index is initialized over an empty clause
    snapshot. *)
Theorem semantic_search_empty (query_text : json) (k : nat) (st : state) :
  (faiss_index st = None /\ rows (clauses (store st)) = []) \/
  (faiss_index st <> None /\ clause_texts st = []) ->
  snd (semantic_search w query_text k st) = Ok [].
Proof.
  intros [[Hidx Hrows] | [Hidx Htexts]];
    unfold semantic_search, mbind, M_bind, get_state.
  - rewrite Hidx, build_faiss_index_empty by exact Hrows. reflexivity.
  - destruct (faiss_index st) as [index|] eqn:E; [|congruence].
    cbn. rewrite E, Htexts. reflexivity.
Qed.

(** An uninitialized index is first rebuilt from the store, and the search
    is answered from the rebuilt index. *)
Lemma semantic_search_lazy_build (query_text : json) (k : nat) (st st1 : state) :
  faiss_index st = None ->
  build_faiss_index w st = (st1, Ok tt) ->
  faiss_index st1 <> None ->
  semantic_search w query_text k st = semantic_search w query_text k st1.
Proof.
  intros Hidx Hbuild Hsome.
  unfold semantic_search, mbind, M_bind, get_state.
  rewrite Hidx, Hbuild.
  destruct (faiss_index st1) as [index|] eqn:E; [|congruence].
  cbn. rewrite E. reflexivity.
Qed.

End Search.

(** ** What a search returns *)

Definition hit_le (h1 h2 : Z * nat) : Prop := Faiss.hit_leb h1 h2 = true.


Lemma hit_le_distance (h1 h2 : Z * nat) : hit_le h1 h2 -> fst h1 <= fst h2.
Proof.
  unfold hit_le, Faiss.hit_leb.
  destruct (Z.ltb_spec (fst h1) (fst h2)), (Z.eqb_spec (fst h1) (fst h2));
    simpl; try discriminate; lia.
Qed.












Section SearchOrder.

Context (w : World).



End SearchOrder.

(** ** A small world to run the views in

    The encoder sends a text to the one-dimensional vector of its length,
    PDF extraction returns the bytes as the text of a single page, and
    [json.loads] is given on the few texts that occur. *)

Definition quoted (s : str) : str := [34%N] ++ s ++ [34%N].

Definition question : str := py "Waiting period is two years".

Definition query_body : str :=
  py "{" ++ quoted (py "query") ++ py ": " ++ quoted question ++ py "}".

Definition example_json_loads (s : str) : option json :=
  snd <$> List.find (fun entry => bool_decide (fst entry = s))
            [ (query_body, dict [(py "query", JStr question)]);
              (py "{}", dict []);
              (py "[]", JArr []) ].

Definition fenced_empty_object : str :=
  py "```json" ++ [10%N] ++ py "{}" ++ [10%N] ++ py "```".

Definition example_world (key : option str) (decision_reply : result str) : World := {|
  GEMINI_API_KEY := key;
  json_loads := example_json_loads;
  generate_content := fun p =>
    match p with
    | ParsePrompt _ => Ok fenced_empty_object
    | DecisionPrompt _ _ => decision_reply
    end;
  embedding_model_encode := fun v =>
    match v with
    | JStr s => Ok [Z.of_nat (length s)]
    | _ => Raise (TypeError "object of this type has no len()")
    end;
  get_text := fun bytes => Ok [bytes];
  uuid4 := fun n => py "task-" ++ decimal n;
  query_check := fun v =>
    match v with
    | JNull => Some (Exn (py "IntegrityError") (py "NOT NULL constraint failed: AI_System_query.query_text"))
    | _ => None
    end;
  decision_check := fun _ _ _ _ => None
|}.

Definition plain_world : World := example_world (Some (py "key")) (Ok (py "{}")).

Definition policy_document : Document :=
  {| doc_id := 1; doc_name := py "policy.pdf"; doc_file_path := py "policy.pdf" |}.

Definition policy_store : db := {|
  documents := Table [policy_document] 2;
  clauses := Table two_clauses 3;
  queries := Table [] 1;
  decisions := Table [] 1
|}.

(** A process that has just started: the store holds a document, the
    module-level index is still [None]. *)
Definition started_state : state := {|
  store := policy_store;
  faiss_index := None;
  clause_texts := [];
  cache := ∅;
  uuid_count := 0;
  threads := []
|}.

(** The same process once [build_faiss_index] has run. *)
Definition indexed_state : state :=
  fst (build_faiss_index plain_world started_state).

(** A process over an empty store. *)
Definition empty_state : state := {|
  store := {| documents := Table [] 1; clauses := Table [] 1;
              queries := Table [] 1; decisions := Table [] 1 |};
  faiss_index := None;
  clause_texts := [];
  cache := ∅;
  uuid_count := 0;
  threads := []
|}.

Definition post (b : str) (f : option uploaded_file) : request :=
  {| method := py "POST"; body := b; FILES_document := f |}.

Section SearchResults.

Context (w : World).

(** C6 (where the code departs from it): over a snapshot of two clauses
    [a], [b] with the query nearer to [b], a search for three neighbours
    gets the labels 1, 0 and the filler -1 from the index; the filler
    passes the test [idx < len(clause_texts)] and indexes the snapshot from
    its end, so the result is [b; a; b]: not in non-decreasing distance,
    and with [b] a second time. *)
Theorem semantic_search_filler_label
    (query_text : json) (a b : str) (va vb vq : vec) (st : state) :
  faiss_index st = Some [va; vb] ->
  clause_texts st = [a; b] ->
  embedding_model_encode w query_text = Ok vq ->
  Faiss.l2sq vq vb < Faiss.l2sq vq va ->
  semantic_search w query_text 3 st = (st, Ok [b; a; b]).
Proof.
  intros Hidx Htexts Henc Hlt.
  unfold semantic_search, mbind, M_bind, get_state.
  rewrite Hidx. cbn. rewrite Hidx, Htexts. cbn.
  unfold lift. rewrite Henc.
  unfold Faiss.search, Faiss.hits. cbn.
  unfold Faiss.hit_leb. cbn [fst snd].
  assert (E1 : (Faiss.l2sq vq va <? Faiss.l2sq vq vb) = false) by lia.
  assert (E2 : (Faiss.l2sq vq va =? Faiss.l2sq vq vb) = false) by lia.
  rewrite E1, E2. reflexivity.
Qed.

End SearchResults.

Lemma semantic_search_filler_label_example :
  Faiss.l2sq [27] [27] < Faiss.l2sq [27] [35] /\
  semantic_search plain_world (JStr question) 3 indexed_state
  = (indexed_state,
     Ok [py "Waiting period is two years";
         py "Claims must be filed within 30 days";
         py "Waiting period is two years"]).
Proof.
  split; [vm_compute; reflexivity|].
  apply (semantic_search_filler_label plain_world (JStr question) _ _ [35] [27] [27]);
    vm_compute; reflexivity.
Defined.

Lemma semantic_search_empty_example :
  snd (semantic_search plain_world (JStr question) 5 empty_state) = Ok [].
Proof.
  apply (semantic_search_empty plain_world (JStr question) 5 empty_state).
  left. split; reflexivity.
Defined.

(** With the index still [None] and clauses in the store, search rebuilds
    the index and answers from it. *)
Lemma semantic_search_uninitialized_answers :
  faiss_index started_state = None /\
  clause_texts started_state = [] /\
  snd (semantic_search plain_world (JStr question) 1 started_state)
  = Ok [py "Waiting period is two years"] /\
  snd (semantic_search plain_world (JStr question) 1 started_state) <> Ok [].
Proof. vm_compute. repeat split; discriminate. Qed.

(** ** Upload *)

Section Upload.

Context (w : World).

(** C9: an upload whose file name is the name of a stored document is
    answered with the 400 error response and leaves the whole state as it
    was: no document row, no task identifier drawn, no progress entry, no
    background thread. *)
Theorem upload_duplicate_rejected (request : request) (file_obj : uploaded_file) (st : state) :
  method request = py "POST" ->
  FILES_document request = Some file_obj ->
  (exists d, In d (rows (documents (store st))) /\ doc_name d = file_name file_obj) ->
  upload_document w request st
  = (st, Ok {| status_code := 400;
               content := dict [(py "error", JStr (duplicate_message (file_name file_obj)))] |}).
Proof.
  intros Hpost Hfile (d & Hin & Hname).
  unfold upload_document. rewrite bool_decide_eq_true_2 by exact Hpost.
  rewrite Hfile. unfold mbind, M_bind, mret, M_ret, get_state.
  assert (E : existsb (fun d => bool_decide (doc_name d = file_name file_obj))
                      (rows (documents (store st))) = true).
  { apply existsb_exists. exists d. split; [exact Hin|].
    now apply bool_decide_eq_true_2. }
  rewrite E. reflexivity.
Qed.

End Upload.

Definition policy_upload : uploaded_file :=
  {| file_name := py "policy.pdf"; file_bytes := py "Section 1" ++ [10%N] ++ py "a" |}.

Lemma upload_duplicate_rejected_example :
  upload_document plain_world (post [] (Some policy_upload)) started_state
  = (started_state,
     Ok {| status_code := 400;
           content := dict [(py "error", JStr (duplicate_message (py "policy.pdf")))] |}).
Proof.
  apply (upload_duplicate_rejected plain_world (post [] (Some policy_upload)) policy_upload).
  - reflexivity.
  - reflexivity.
  - exists policy_document. split; [left; reflexivity | reflexivity].
Defined.

Definition leaflet : uploaded_file :=
  {| file_name := py "leaflet.pdf";
     file_bytes := py "Cover starts on the first day of the month after enrolment." ++ [10%N]
                   ++ py "Section 1" ++ [10%N] ++ py "a" |}.

Lemma ingestion_progress_reaches_100_example :
  let st' := fst (extract_and_store_clauses plain_world leaflet (Some (py "task-0")) started_state) in
  length (rows (clauses (store st'))) = 4%nat /\
  cache st' !! progress_key (py "task-0") = Some 100.
Proof.
  apply (ingestion_progress_reaches_100 plain_world leaflet (py "task-0") started_state _
           {| doc_id := 2; doc_name := py "leaflet.pdf"; doc_file_path := py "leaflet.pdf" |} 2).
  - discriminate.
  - vm_compute. reflexivity.
  - lia.
Defined.

(** ** The query pipeline *)

Section Pipeline.

Context (w : World).

(** Steps that leave the decision table alone and keep every query row,
    up to its parsed attributes. *)
Definition keeps_rows (st st' : state) : Prop :=
  decisions (store st') = decisions (store st) /\
  List.map query_id (rows (queries (store st'))) = List.map query_id (rows (queries (store st))).

Lemma keeps_rows_refl (st : state) : keeps_rows st st.
Proof. now split. Qed.

Lemma keeps_rows_trans (st1 st2 st3 : state) :
  keeps_rows st1 st2 -> keeps_rows st2 st3 -> keeps_rows st1 st3.
Proof. intros [A B] [C D]. split; congruence. Qed.

Lemma keeps_rows_store (st st' : state) : store st' = store st -> keeps_rows st st'.
Proof. intros E. unfold keeps_rows. now rewrite E. Qed.

Lemma parse_query_keeps_rows (q : Query) (text : json) (st : state) :
  keeps_rows st (fst (parse_query w q text st)).
Proof.
  unfold parse_query, mbind, M_bind, lift.
  destruct (generate_content w (ParsePrompt text)) as [res|e]; [|apply keeps_rows_refl].
  split; [reflexivity|]. cbn. rewrite List.map_map.
  apply List.map_ext_in. intros r _.
  destruct (query_id r =? query_id q)%nat eqn:E; [|reflexivity].
  cbn. symmetry. now apply Nat.eqb_eq.
Qed.

Lemma build_faiss_index_store (st : state) :
  store (fst (build_faiss_index w st)) = store st.
Proof.
  unfold build_faiss_index, mbind, M_bind, get_state, modify, lift. cbn.
  destruct (nonempty _); [|reflexivity]. cbn.
  destruct (map_result _ _); reflexivity.
Qed.

Lemma for_each_pure {A B} (f : B -> A -> M B) (xs : list A) :
  (forall acc x st, fst (f acc x st) = st) ->
  forall acc st, fst (for_each f acc xs st) = st.
Proof.
  intros Hf. induction xs as [|x xs IH]; intros acc st; [reflexivity|].
  cbn [for_each]. unfold mbind, M_bind.
  specialize (Hf acc x st). destruct (f acc x st) as [st1 [acc'|e]]; cbn in *; subst.
  - apply IH.
  - reflexivity.
Qed.

Lemma semantic_search_store (text : json) (k : nat) (st : state) :
  store (fst (semantic_search w text k st)) = store st.
Proof.
  unfold semantic_search, mbind, M_bind, get_state.
  assert (H : exists st1 r, (if faiss_index st is None then build_faiss_index w else mret ()) st = (st1, r)
                            /\ store st1 = store st).
  { destruct (faiss_index st).
    - now exists st, (Ok tt).
    - pose proof (build_faiss_index_store st) as Hb.
      destruct (build_faiss_index w st) as [st1 r]. now exists st1, r. }
  destruct H as (st1 & r & -> & Hst1).
  destruct r as [[]|e]; [|exact Hst1].
  destruct (faiss_index st1) as [index|]; [|exact Hst1].
  destruct (length (clause_texts st1) =? 0)%nat; [exact Hst1|].
  unfold lift at 1. destruct (embedding_model_encode w text) as [vq|e]; [|exact Hst1].
  rewrite for_each_pure; [exact Hst1|].
  intros acc idx s. unfold append_clause. destruct (idx <? _); [|reflexivity].
  unfold mbind, M_bind, lift. now destruct (py_index _ _).
Qed.

Lemma retrieve_store (text : json) (st : state) :
  store (fst (retrieve w text st)) = store st.
Proof.
  unfold retrieve, mbind, M_bind, get_state.
  pose proof (semantic_search_store text 5 st) as H.
  destruct (semantic_search w text 5 st) as [st1 [snippets|e]]; exact H.
Qed.


Lemma getitem_is_dict (v : json) (key : string) (x : json) :
  py_getitem v key = Ok x -> exists m, v = JObj m.
Proof. destruct v; try discriminate. intros _. now eexists. Qed.

(** What the decision step leaves behind: a raise before the row is
    written, or one row for this query and the 200 response. *)
Lemma decision_engine_outcome (q : Query) (text : json) (matched : list str) (st : state) :
  match decision_engine w q text matched st with
  | (st', Raise e) => st' = st
  | (st', Ok resp) =>
      status_code resp = 200 /\
      exists d,
        decision_query d = query_id q /\
        store st' = set_decisions (Table (rows (decisions (store st)) ++ [d])
                                         (S (next_pk (decisions (store st))))) (store st)
  end.
Proof.
  unfold decision_engine, mbind, M_bind.
  unfold lift at 1. destruct (generate_content w _) as [res|e]; [|reflexivity].
  set (loaded := match json_loads w _ with Some v => v | None => _ end). clearbody loaded.
  unfold lift at 1. destruct (py_in _ loaded) as [present|e]; [|reflexivity].
  match goal with
  | |- context [match ?c st with _ => _ end] => set (fixed := c st)
  end.
  assert (Hfixed : fst fixed = st).
  { subst fixed. destruct present; [reflexivity|].
    unfold mbind, M_bind, lift.
    repeat match goal with
           | |- context [py_setitem ?a ?b ?c] => destruct (py_setitem a b c); [|reflexivity]
           end.
    reflexivity. }
  destruct fixed as [st0 [decision_data|e]]; cbn in Hfixed; subst st0; [|reflexivity].
  unfold lift.
  destruct (py_getitem decision_data "decision") as [status|e] eqn:Hstatus; [|reflexivity].
  destruct (getitem_is_dict _ _ _ Hstatus) as [m ->].
  cbn [py_get]. 
  destruct (py_getitem (JObj m) "justification") as [just|e]; [|reflexivity].
  unfold Decision_create.
  destruct (decision_check w _ _ _ _) as [e|]; [reflexivity|].
  cbn. split; [reflexivity|]. eexists. split; [|reflexivity]. reflexivity.
Qed.


Lemma pipeline_outcome (q : Query) (text : json) (st : state) :
  match pipeline w q text st with
  | (st', Raise e) => keeps_rows st st'
  | (st', Ok resp) =>
      status_code resp = 200 /\
      List.map query_id (rows (queries (store st')))
      = List.map query_id (rows (queries (store st))) /\
      exists d,
        decision_query d = query_id q /\
        rows (decisions (store st')) = rows (decisions (store st)) ++ [d]
  end.
Proof.
  unfold pipeline, mbind, M_bind.
  pose proof (parse_query_keeps_rows q text st) as H1.
  destruct (parse_query w q text st) as [st1 [[]|e]]; cbn [fst] in H1; [|exact H1].
  pose proof (retrieve_store text st1) as H2.
  destruct (retrieve w text st1) as [st2 [matched|e]]; cbn [fst] in H2;
    [|exact (keeps_rows_trans _ _ _ H1 (keeps_rows_store _ _ H2))].
  pose proof (decision_engine_outcome q text matched st2) as H3.
  destruct (decision_engine w q text matched st2) as [st3 [resp|e]].
  - destruct H3 as (Hcode & d & Hd & Hstore). destruct H1 as [Hdec Hq].
    split; [exact Hcode|]. rewrite Hstore, H2. cbn. split; [exact Hq|].
    exists d. now rewrite Hdec.
  - subst st3. exact (keeps_rows_trans _ _ _ H1 (keeps_rows_store _ _ H2)).
Qed.

(** The row and the response substituted when the reply has no [decision]
    key. *)
Definition insufficient : json := JStr (py "Insufficient data to decide.").

Definition default_decision (q : Query) (matched : list str) (pk : nat) : Decision :=
  {| decision_id := pk; decision_query := query_id q;
     decision_status := needs_review; amount := JNull;
     justification := insufficient; referenced_clauses := texts matched |}.

Definition with_defaults (m : gmap str json) (matched : list str) : json :=
  JObj (<[py "referenced_clauses" := texts matched]>
          (<[py "justification" := insufficient]>
             (<[py "amount" := JNull]>
                (<[py "decision" := needs_review]> m)))).

Ltac lookup_key :=
  rewrite !lookup_insert;
  repeat match goal with
         | |- context [decide (?a = ?b)] =>
             let Hk := fresh "Hk" in
             destruct (decide (a = b)) as [Hk|Hk];
             [ try (vm_compute in Hk; discriminate Hk)
             | try (exfalso; apply Hk; reflexivity) ]
         end;
  try reflexivity.

Lemma with_defaults_lookup (m : gmap str json) (matched : list str) :
  let d := <[py "referenced_clauses" := texts matched]>
             (<[py "justification" := insufficient]>
                (<[py "amount" := JNull]>
                   (<[py "decision" := needs_review]> m))) in
  d !! py "decision" = Some needs_review /\
  d !! py "amount" = Some JNull /\
  d !! py "justification" = Some insufficient /\
  d !! py "referenced_clauses" = Some (texts matched).
Proof. repeat split; lookup_key. Qed.

(** C4 (as the code has it): when the pipeline has reached the decision
    step with the resolved list [matched], and the reply parses as a JSON
    object without the key [decision], one Decision row is written for the
    query, with status "Needs Review", a null amount, the fixed text
    "Insufficient data to decide." and [matched] as its referenced clauses,
    and the defaulted object is returned with status 200. *)
Theorem missing_decision_key_defaults
    (q : Query) (text : json) (st st1 st2 : state) (matched : list str)
    (res : str) (m : gmap str json) :
  parse_query w q text st = (st1, Ok tt) ->
  retrieve w text st1 = (st2, Ok matched) ->
  generate_content w (DecisionPrompt text matched) = Ok res ->
  json_loads w (strip_fence (strip res)) = Some (JObj m) ->
  m !! py "decision" = None ->
  decision_check w needs_review JNull insufficient (texts matched) = None ->
  pipeline w q text st
  = (set_store (set_decisions
                  (Table (rows (decisions (store st2))
                          ++ [default_decision q matched (next_pk (decisions (store st2)))])
                         (S (next_pk (decisions (store st2)))))) st2,
     Ok {| status_code := 200; content := with_defaults m matched |}).
Proof.
  intros Hparse Hretrieve Hreply Hloads Hkey Hcheck.
  unfold pipeline, mbind, M_bind. rewrite Hparse, Hretrieve.
  unfold decision_engine, mbind, M_bind, lift.
  rewrite Hreply, Hloads. cbn [py_in]. rewrite Hkey.
  rewrite bool_decide_eq_false_2 by (intros [x Hx]; discriminate Hx).
  cbn [py_setitem py_getitem py_get].
  destruct (with_defaults_lookup m matched) as (E1 & E2 & E3 & E4).
  cbv zeta in E1, E2, E3, E4. fold insufficient.
  rewrite E1, E2, E3, E4.
  unfold Decision_create. rewrite Hcheck. reflexivity.
Qed.

(** The response of the [except] branch. *)
Definition degraded (e : exn) : response :=
  {| status_code := 500;
     content := dict [(py "decision", needs_review);
                      (py "amount", JNull);
                      (py "justification", JStr ([10060%N] ++ py " Error: " ++ exn_str e));
                      (py "referenced_clauses", JArr [])] |}.

Lemma error_response_degraded (e : exn) (st : state) :
  error_response e st = (st, Ok (degraded e)).
Proof. reflexivity. Qed.

(** The request gets as far as the [try]: the body is read, the Query row
    [q] is created, leaving the state [st1], and the client is set up. *)
Definition enters_try (request : request) (st : state)
    (q : Query) (text : json) (st1 : state) : Prop :=
  method request = py "POST" /\
  (exists data, json_loads w (body request) = Some data /\
                py_get data "query" JNull = Ok text) /\
  Query_create w text st = (st1, Ok q) /\
  is_Some (GEMINI_API_KEY w).

Lemma process_query_in_try (request : request) (st : state)
    (q : Query) (text : json) (st1 : state) :
  enters_try request st q text st1 ->
  process_query w request st = try_except (pipeline w q text) error_response st1.
Proof.
  intros (Hpost & (data & Hbody & Htext) & Hcreate & [key Hkey]).
  unfold process_query. rewrite bool_decide_eq_true_2 by exact Hpost.
  unfold mbind, M_bind at 1 2 3 4. rewrite Hbody. cbn [mret M_ret].
  unfold lift. rewrite Htext, Hcreate.
  unfold configure. rewrite Hkey. reflexivity.
Qed.

Lemma parse_transport_failure (q : Query) (text : json) (e : exn) (st : state) :
  generate_content w (ParsePrompt text) = Raise e ->
  pipeline w q text st = (st, Raise e).
Proof.
  intros H. unfold pipeline, parse_query, mbind, M_bind, lift. now rewrite H.
Qed.

Lemma decision_transport_failure (q : Query) (text : json) (matched : list str)
    (e : exn) (st : state) :
  generate_content w (DecisionPrompt text matched) = Raise e ->
  decision_engine w q text matched st = (st, Raise e).
Proof.
  intros H. unfold decision_engine, mbind, M_bind, lift. now rewrite H.
Qed.

(** C5 (as the code has it): once the Query row is created and the client
    is set up, the request always ends in a response; whatever the
    pipeline raises, and in particular a failure of the call to the
    reasoning capability, is turned into the 500 response with decision
    "Needs Review", a null amount, the justification carrying the text of
    the exception and no referenced clauses. *)
Theorem query_failure_degrades (request : request) (st : state)
    (q : Query) (text : json) (st1 : state) :
  enters_try request st q text st1 ->
  (exists st' resp, process_query w request st = (st', Ok resp)) /\
  (forall e st2, pipeline w q text st1 = (st2, Raise e) ->
                 process_query w request st = (st2, Ok (degraded e))) /\
  (forall e, generate_content w (ParsePrompt text) = Raise e ->
             process_query w request st = (st1, Ok (degraded e))).
Proof.
  intros Henter. rewrite (process_query_in_try _ _ _ _ _ Henter).
  unfold try_except. repeat split.
  - destruct (pipeline w q text st1) as [st2 [resp|e]]; [now exists st2, resp|].
    exists st2, (degraded e). apply error_response_degraded.
  - intros e st2 ->. apply error_response_degraded.
  - intros e He. rewrite (parse_transport_failure q text e st1 He).
    apply error_response_degraded.
Qed.

(** C10: when the request ends in the degraded 500 response, the decision
    table is what it was before the request and the Query row created at
    its start is still in the store; the decision table changes only when
    the request ends in the 200 response, and then by one row, for that
    query. *)
Theorem degraded_path_writes_no_decision (request : request) (st st' : state) (resp : response) :
  process_query w request st = (st', Ok resp) ->
  (status_code resp = 500 ->
   decisions (store st') = decisions (store st) /\
   exists q, In q (rows (queries (store st'))) /\
             query_id q = next_pk (queries (store st))) /\
  (decisions (store st') <> decisions (store st) ->
   status_code resp = 200 /\
   exists d, rows (decisions (store st')) = rows (decisions (store st)) ++ [d] /\
             decision_query d = next_pk (queries (store st))).
Proof.
  unfold process_query.
  destruct (bool_decide (method request = py "POST")).
  2:{ cbn. intros [= <- <-]. split; [discriminate | congruence]. }
  unfold mbind, M_bind at 1 2 3 4.
  destruct (json_loads w (body request)) as [data|]; [|discriminate].
  cbn [mret M_ret]. unfold lift.
  destruct (py_get data "query" JNull) as [text|e]; [|discriminate].
  unfold Query_create.
  destruct (query_check w text) as [e|]; [discriminate|].
  cbn [insert_row].
  set (q := {| query_id := next_pk (queries (store st)); query_text := text;
               parsed_data := JNull |}).
  set (st1 := set_store _ st).
  assert (Hdec1 : decisions (store st1) = decisions (store st)) by reflexivity.
  assert (Hq1 : In (query_id q) (List.map query_id (rows (queries (store st1))))).
  { subst st1. cbn. rewrite List.map_app. apply in_or_app. right. now left. }
  unfold configure. destruct (GEMINI_API_KEY w) as [key|]; [|discriminate].
  cbn [mret M_ret]. unfold try_except.
  pose proof (pipeline_outcome q text st1) as Hout.
  destruct (pipeline w q text st1) as [st2 [resp2|e]].
  - intros [= <- <-]. destruct Hout as (Hcode & _ & d & Hd & Hrows).
    split; [rewrite Hcode; discriminate|].
    intros _. split; [exact Hcode|]. exists d. now rewrite Hrows, Hdec1.
  - rewrite error_response_degraded. intros [= <- <-].
    destruct Hout as [Hdec Hids]. split.
    + intros _. split; [now rewrite Hdec|].
      rewrite <- Hids in Hq1. apply in_map_iff in Hq1 as (r & Hr & Hin).
      now exists r.
    + intros Hne. exfalso. apply Hne. now rewrite Hdec.
Qed.

End Pipeline.

(** ** The pipeline on the example store *)

Definition ask : request := post query_body None.

Definition asked_query : Query :=
  {| query_id := 1; query_text := JStr question; parsed_data := JNull |}.

(** The indexed process after the Query row of [ask] is created. *)
Definition asked_state : state :=
  fst (Query_create plain_world (JStr question) indexed_state).

(** The reasoning capability answers the decision prompt with a JSON array. *)
Definition array_world : World := example_world (Some (py "key")) (Ok (py "[]")).

(** The call with the decision prompt fails in transport. *)
Definition unavailable : exn := Exn (py "ServiceUnavailable") (py "503 The service is unavailable").
Definition failing_world : World := example_world (Some (py "key")) (Raise unavailable).

(** The setting [GEMINI_API_KEY] is not defined. *)
Definition unconfigured_world : World := example_world None (Ok (py "{}")).

(** What the search for five neighbours over the two clauses resolves to. *)
Definition asked_matched : list str :=
  [py "Waiting period is two years";
   py "Claims must be filed within 30 days";
   py "Waiting period is two years";
   py "Waiting period is two years";
   py "Waiting period is two years"].

Lemma missing_decision_key_defaults_example :
  let st2 := fst (retrieve plain_world (JStr question)
                    (fst (parse_query plain_world asked_query (JStr question) asked_state))) in
  pipeline plain_world asked_query (JStr question) asked_state
  = (set_store (set_decisions (Table [default_decision asked_query asked_matched 1] 2)) st2,
     Ok {| status_code := 200; content := with_defaults ∅ asked_matched |}).
Proof.
  intros st2.
  apply (missing_decision_key_defaults plain_world asked_query (JStr question) asked_state
           (fst (parse_query plain_world asked_query (JStr question) asked_state))
           st2 asked_matched (py "{}") ∅).
  - vm_compute. reflexivity.
  - vm_compute. reflexivity.
  - reflexivity.
  - vm_compute. reflexivity.
  - reflexivity.
  - reflexivity.
Defined.

(** A reply that parses as JSON and has no [decision] key, here the empty
    array, ends in the 500 response and no Decision row. *)
Lemma array_reply_writes_no_decision :
  json_loads array_world (strip_fence (strip (py "[]"))) = Some (JArr []) /\
  rows (decisions (store (fst (process_query array_world ask indexed_state)))) = [] /\
  snd (process_query array_world ask indexed_state)
  = Ok (degraded (TypeError "list indices must be integers or slices, not str")).
Proof. vm_compute. repeat split. Qed.

Lemma query_failure_degrades_example :
  process_query failing_world ask indexed_state
  = (fst (pipeline failing_world asked_query (JStr question) asked_state),
     Ok (degraded unavailable)).
Proof.
  assert (Henter : enters_try failing_world ask indexed_state
                              asked_query (JStr question) asked_state).
  { split; [reflexivity|]. split; [|split].
    - exists (dict [(py "query", JStr question)]). split; vm_compute; reflexivity.
    - vm_compute. reflexivity.
    - eexists. reflexivity. }
  destruct (query_failure_degrades failing_world ask indexed_state
              asked_query (JStr question) asked_state Henter) as (_ & H & _).
  apply H. vm_compute. reflexivity.
Defined.

(** With the setting missing, the exception raised between the creation
    of the Query row and the [try] reaches the caller. *)
Lemma configuration_failure_propagates :
  snd (process_query unconfigured_world ask indexed_state)
  = Raise (AttributeError "'Settings' object has no attribute 'GEMINI_API_KEY'") /\
  rows (queries (store (fst (process_query unconfigured_world ask indexed_state))))
  = [asked_query].
Proof. vm_compute. split; reflexivity. Qed.

Lemma degraded_path_writes_no_decision_example :
  let st' := fst (process_query failing_world ask indexed_state) in
  decisions (store st') = decisions (store indexed_state) /\
  exists q, In q (rows (queries (store st'))) /\
            query_id q = next_pk (queries (store indexed_state)).
Proof.
  destruct (degraded_path_writes_no_decision failing_world ask indexed_state
              (fst (process_query failing_world ask indexed_state))
              (degraded unavailable)) as [H _].
  - vm_compute. reflexivity.
  - apply H. reflexivity.
Defined.

(** * Further properties of the segmenter *)

Lemma segment_groups (raw : list str) :
  Forall trimmed raw ->
  exists groups : list (list str),
    Segmenter.segment raw = List.map (join (py " ")) groups /\
    concat groups = raw /\
    Forall (fun g => g <> []) groups.
Proof.
  intros Hraw.
  destruct (segment_loop _ Hraw [] []) as (done & pending & E & Hc & Hp & Hd);
    [constructor | constructor |].
  unfold Segmenter.segment, Segmenter.segment_from.
  change (([] : list str), ([] : str))
    with (List.map (join (py " ")) [], buffer_of []).
  rewrite E. unfold Segmenter.flush. rewrite nonempty_buffer_of.
  simpl in Hc.
  assert (Hne : Forall (fun g : list str => g <> []) done).
  { eapply Forall_impl; [exact Hd|]. intros g (l & ps & -> & _). discriminate. }
  destruct pending as [|l ps]; cbn [nonempty].
  - exists done. rewrite app_nil_r in Hc. now repeat split.
  - exists (done ++ [l :: ps]).
    rewrite strip_buffer_of by (congruence || assumption).
    repeat split.
    + now rewrite List.map_app.
    + rewrite concat_app. simpl. now rewrite app_nil_r.
    + apply Forall_app. split; [exact Hne|]. now repeat constructor.
Qed.

Lemma length_concat_ge {A} (groups : list (list A)) :
  Forall (fun g => g <> []) groups -> (length groups <= length (concat groups))%nat.
Proof.
  induction 1 as [|g groups Hg _ IH]; simpl; [lia|].
  rewrite length_app. destruct g; [congruence | simpl; lia].
Qed.

(** X1: The segmenter never makes more clauses than there are non-blank
    lines, and makes none exactly when every line is blank. *)
Theorem segment_count (lines : list str) :
  (length (Segmenter.segment (Segmenter.raw_clauses lines))
   <= length (Segmenter.raw_clauses lines))%nat /\
  (Segmenter.segment (Segmenter.raw_clauses lines) = [] <->
   Forall (fun p => strip p = []) lines).
Proof.
  destruct (segment_groups _ (raw_clauses_trimmed lines)) as (groups & E & Hc & Hne).
  rewrite E, length_map. split.
  - rewrite <- Hc. now apply length_concat_ge.
  - assert (Hraw : Segmenter.raw_clauses lines = [] <-> Forall (fun p => strip p = []) lines).
    { unfold Segmenter.raw_clauses. clear. induction lines as [|p lines IH]; simpl.
      - split; [constructor | reflexivity].
      - destruct (strip p) eqn:Ep; cbn [nonempty].
        + rewrite IH. split; [now constructor | now inversion 1].
        + simpl. rewrite Ep. split; [discriminate | inversion 1; congruence]. }
    rewrite <- Hraw, <- Hc. destruct groups; simpl; [tauto|].
    split; [discriminate|].
    inversion Hne as [|? ? Hg _]; subst. destruct l; [congruence | discriminate].
Qed.

Lemma fold_short_lines (raw pending : list str) (done : list str) :
  Forall (fun l => (length l < 40)%nat) raw ->
  fold_left Segmenter.step raw (done, buffer_of pending)
  = (done, buffer_of (pending ++ raw)).
Proof.
  revert pending. induction raw as [|line raw IH]; intros pending H.
  - now rewrite app_nil_r.
  - inversion H as [|? ? Hline Hraw]; subst. cbn [fold_left].
    unfold Segmenter.step at 2.
    replace (Z.of_nat (length line) <? 40) with true by lia.
    rewrite <- buffer_of_snoc, IH by exact Hraw. now rewrite <- app_assoc.
Qed.

(** X2: A text made only of lines shorter than 40 characters becomes one
    clause: its non-blank lines, trimmed, joined by single spaces. *)
Theorem segment_short_lines_merge (lines : list str) :
  Segmenter.raw_clauses lines <> [] ->
  Forall (fun l => (length l < 40)%nat) (Segmenter.raw_clauses lines) ->
  Segmenter.segment (Segmenter.raw_clauses lines)
  = [join (py " ") (Segmenter.raw_clauses lines)].
Proof.
  intros Hne Hshort. unfold Segmenter.segment, Segmenter.segment_from.
  change (([] : list str), ([] : str)) with (([] : list str), buffer_of []).
  rewrite fold_short_lines by exact Hshort. cbn [app Segmenter.flush].
  rewrite nonempty_buffer_of.
  destruct (Segmenter.raw_clauses lines) as [|l ps] eqn:E; [congruence|].
  cbn [nonempty app]. rewrite strip_buffer_of; [reflexivity | discriminate |].
  rewrite <- E. apply raw_clauses_trimmed.
Qed.

Lemma segment_short_lines_merge_example :
  Segmenter.segment (Segmenter.raw_clauses [py "  Section 1 "; []; py "a"; py " b"])
  = [py "Section 1 a b"].
Proof.
  apply (segment_short_lines_merge [py "  Section 1 "; []; py "a"; py " b"]).
  - vm_compute. discriminate.
  - vm_compute. repeat constructor.
Defined.





(** * Further properties of the ingestion *)

(** The rows written for the clauses [cls] of document [doc], the first
    of them under the key [pk]. *)
Definition new_clauses (doc : Document) (pk : nat) (cls : list str) : list Clause :=
  imap (fun j text => {| clause_id := pk + j; clause_document := doc_id doc;
                         clause_text := text |}) cls.

Lemma new_clauses_cons (doc : Document) (pk : nat) (c : str) (cls : list str) :
  new_clauses doc pk (c :: cls)
  = {| clause_id := pk; clause_document := doc_id doc; clause_text := c |}
    :: new_clauses doc (S pk) cls.
Proof.
  unfold new_clauses. cbn [imap]. rewrite Nat.add_0_r. f_equal.
  apply imap_ext. intros j x _. cbn. f_equal. lia.
Qed.

Lemma new_clauses_texts (doc : Document) (pk : nat) (cls : list str) :
  List.map clause_text (new_clauses doc pk cls) = cls.
Proof.
  revert pk. induction cls as [|c cls IH]; intros pk; [reflexivity|].
  rewrite new_clauses_cons. cbn. now rewrite IH.
Qed.

Section IngestionRows.

Context (w : World).

(** Two states that differ at most in the clause table and the cache. *)
Definition same_but_clauses (st st' : state) : Prop :=
  documents (store st') = documents (store st) /\
  queries (store st') = queries (store st) /\
  decisions (store st') = decisions (store st) /\
  faiss_index st' = faiss_index st /\
  clause_texts st' = clause_texts st /\
  uuid_count st' = uuid_count st /\
  threads st' = threads st.

Lemma save_clauses_rows (doc : Document) (task_id : option str) (n : nat) (cls : list str) :
  forall (i : nat) (st : state),
  exists st',
    save_clauses doc task_id n i cls st = (st', Ok tt) /\
    clauses (store st')
    = Table (rows (clauses (store st))
             ++ new_clauses doc (next_pk (clauses (store st))) cls)
            (next_pk (clauses (store st)) + length cls) /\
    same_but_clauses st st' /\
    (truthy task_id = None -> cache st' = cache st).
Proof.
  induction cls as [|c cls IH]; intros i st.
  - exists st. cbn. rewrite app_nil_r, Nat.add_0_r.
    repeat split. now destruct (clauses (store st)).
  - cbn [save_clauses].
    unfold mbind, M_bind, Clause_create, insert_row. cbn beta iota.
    set (st1 := set_store _ st).
    set (step := (if truthy task_id is Some t
                  then cache_set (progress_key t) (progress_value i n)
                  else mret ()) st1).
    assert (Hstep : exists st2, step = (st2, Ok tt) /\ store st2 = store st1 /\
                      faiss_index st2 = faiss_index st /\ clause_texts st2 = clause_texts st /\
                      uuid_count st2 = uuid_count st /\ threads st2 = threads st /\
                      (truthy task_id = None -> cache st2 = cache st)).
    { subst step. destruct (truthy task_id) as [t|].
      - eexists. split; [reflexivity|]. repeat split. discriminate.
      - exists st1. now repeat split. }
    destruct Hstep as (st2 & -> & Hstore & Hi & Ht & Hu & Hth & Hc).
    destruct (IH (S i) st2) as (st' & E & Hcl & Hsame & Hcache).
    exists st'. rewrite E. split; [reflexivity|].
    destruct Hsame as (H1 & H2 & H3 & H4 & H5 & H6 & H7).
    rewrite Hstore in *. subst st1.
    cbn [store set_store set_clauses clauses documents queries decisions rows next_pk
         faiss_index clause_texts uuid_count threads length] in *.
    repeat split; try congruence.
    + rewrite Hcl, new_clauses_cons, <- app_assoc. cbn. f_equal. lia.
    + intros Hnone. rewrite Hcache by exact Hnone. now apply Hc.
Qed.

Lemma extract_and_store_clauses_rows
    (file_obj : uploaded_file) (task_id : option str) (st : state) (pages : list str) :
  get_text w (file_bytes file_obj) = Ok pages ->
  let cls := Segmenter.clauses_of_pages pages in
  let doc := {| doc_id := next_pk (documents (store st));
                doc_name := file_name file_obj; doc_file_path := file_name file_obj |} in
  exists st',
    extract_and_store_clauses w file_obj task_id st = (st', Ok (doc, length cls)) /\
    rows (documents (store st')) = rows (documents (store st)) ++ [doc] /\
    rows (clauses (store st'))
    = rows (clauses (store st)) ++ new_clauses doc (next_pk (clauses (store st))) cls /\
    queries (store st') = queries (store st) /\
    decisions (store st') = decisions (store st) /\
    faiss_index st' = faiss_index st /\
    clause_texts st' = clause_texts st.
Proof.
  intros Hpages cls doc. unfold extract_and_store_clauses.
  unfold mbind, M_bind, mret, M_ret, Document_create, insert_row, lift.
  cbn beta iota. rewrite Hpages. fold cls. fold doc.
  set (st1 := set_store _ st).
  destruct (save_clauses_rows doc task_id (length cls) cls 0%nat st1)
    as (st' & E & Hcl & (H1 & H2 & H3 & H4 & H5 & _) & _).
  exists st'. rewrite E. split; [reflexivity|].
  rewrite Hcl, H1, H2, H3, H4, H5. now repeat split.
Qed.

(** X4: A successful ingestion appends one Document row named after the file
    and one Clause row per segmented clause, in order, all pointing at the
    new document; it returns that document and the number of clauses and
    leaves queries, decisions and the search index as they were. *)
Theorem ingestion_appends_rows
    (file_obj : uploaded_file) (task_id : option str) (st : state) (pages : list str) :
  get_text w (file_bytes file_obj) = Ok pages ->
  let cls := Segmenter.clauses_of_pages pages in
  let doc := {| doc_id := next_pk (documents (store st));
                doc_name := file_name file_obj; doc_file_path := file_name file_obj |} in
  exists st',
    extract_and_store_clauses w file_obj task_id st = (st', Ok (doc, length cls)) /\
    rows (documents (store st')) = rows (documents (store st)) ++ [doc] /\
    rows (clauses (store st'))
    = rows (clauses (store st)) ++ new_clauses doc (next_pk (clauses (store st))) cls /\
    queries (store st') = queries (store st) /\
    decisions (store st') = decisions (store st) /\
    faiss_index st' = faiss_index st /\
    clause_texts st' = clause_texts st.
Proof. intros. eapply extract_and_store_clauses_rows; eassumption. Qed.

(** When the text extraction fails, the Document row written before it
    stays in the store, without any clause. *)
Lemma extract_and_store_clauses_fails
    (file_obj : uploaded_file) (task_id : option str) (st : state) (e : exn) :
  get_text w (file_bytes file_obj) = Raise e ->
  extract_and_store_clauses w file_obj task_id st
  = (set_store (set_documents
                  (Table (rows (documents (store st))
                          ++ [{| doc_id := next_pk (documents (store st));
                                 doc_name := file_name file_obj;
                                 doc_file_path := file_name file_obj |}])
                         (S (next_pk (documents (store st)))))) st,
     Raise e).
Proof.
  intros H. unfold extract_and_store_clauses.
  unfold mbind, M_bind, Document_create, insert_row, lift. cbn beta iota.
  now rewrite H.
Qed.

(** X5: Called without a task identifier, or with the empty one, the
    ingestion writes no progress: the cache is left as it was, whatever
    the outcome. *)
Theorem extract_and_store_clauses_silent
    (file_obj : uploaded_file) (task_id : option str) (st : state) :
  truthy task_id = None ->
  cache (fst (extract_and_store_clauses w file_obj task_id st)) = cache st.
Proof.
  intros Hnone. destruct (get_text w (file_bytes file_obj)) as [pages|e] eqn:E.
  - unfold extract_and_store_clauses.
    unfold mbind, M_bind, mret, M_ret, Document_create, insert_row, lift.
    cbn beta iota. rewrite E.
    match goal with
    | |- context [save_clauses ?d ?t ?n ?i ?c ?s] =>
        destruct (save_clauses_rows d t n c i s) as (st' & -> & _ & _ & Hc)
    end.
    cbn. now rewrite Hc.
  - now rewrite (extract_and_store_clauses_fails _ _ _ _ E).
Qed.

End IngestionRows.

Lemma ingestion_appends_rows_example :
  exists st',
    extract_and_store_clauses plain_world leaflet None started_state
    = (st', Ok ({| doc_id := 2; doc_name := py "leaflet.pdf"; doc_file_path := py "leaflet.pdf" |},
                2%nat)) /\
    List.map clause_text (rows (clauses (store st')))
    = List.map clause_text two_clauses
      ++ [py "Cover starts on the first day of the month after enrolment.";
          py "Section 1 a"].
Proof.
  destruct (ingestion_appends_rows plain_world leaflet None started_state
              [file_bytes leaflet]) as (st' & E & _ & Hcl & _); [reflexivity|].
  exists st'. split; [exact E|]. rewrite Hcl. vm_compute. reflexivity.
Defined.

Lemma extract_and_store_clauses_silent_example :
  cache (fst (extract_and_store_clauses plain_world leaflet (Some []) started_state)) = ∅.
Proof.
  apply (extract_and_store_clauses_silent plain_world leaflet (Some []) started_state).
  reflexivity.
Defined.

(** * Further properties of the index *)

Lemma map_result_ok {A B} (f : A -> result B) (xs : list A) (ys : list B) :
  map_result f xs = Ok ys -> Forall2 (fun x y => f x = Ok y) xs ys.
Proof.
  revert ys. induction xs as [|x xs IH]; intros ys; simpl.
  - intros [= <-]. constructor.
  - destruct (f x) as [y|e] eqn:E; [|discriminate].
    destruct (map_result f xs) as [ys'|e]; [|discriminate].
    intros [= <-]. constructor; [exact E | now apply IH].
Qed.

Lemma py_index_in {A} (xs : list A) (i : Z) (x : A) : py_index xs i = Ok x -> In x xs.
Proof.
  unfold py_index. destruct (_ && _); [|discriminate].
  destruct (xs !! _) as [y|] eqn:E; [|discriminate].
  intros [= <-]. apply list_elem_of_In. eapply list_elem_of_lookup_2. exact E.
Qed.

Lemma length_search (index : list vec) (vq : vec) (k : nat) :
  length (Faiss.search index vq k) = k.
Proof.
  unfold Faiss.search. rewrite length_app, repeat_length, length_map, length_take. lia.
Qed.

(** The loop over the labels changes no state, appends at most one text
    per label, and only texts of the snapshot. *)
Lemma append_clause_loop (snapshot : list str) (labels : list Z) :
  forall (acc : list str) (st st' : state) (rs : list str),
    for_each (append_clause snapshot) acc labels st = (st', Ok rs) ->
    st' = st /\
    (length rs <= length acc + length labels)%nat /\
    (Forall (fun r => In r snapshot) acc -> Forall (fun r => In r snapshot) rs).
Proof.
  induction labels as [|idx labels IH]; intros acc st st' rs.
  - cbn. intros [= <- <-]. repeat split; [lia | tauto].
  - cbn [for_each]. unfold mbind, M_bind at 1. unfold append_clause at 1.
    destruct (idx <? Z.of_nat (length snapshot)).
    + unfold mbind, M_bind, lift, mret, M_ret.
      destruct (py_index snapshot idx) as [c|e] eqn:E; [|discriminate].
      intros H. apply IH in H as (-> & Hlen & Hin). split; [reflexivity|]. split.
      * rewrite length_app in Hlen. simpl in *. lia.
      * intros Hacc. apply Hin. apply Forall_app. split; [exact Hacc|].
        repeat constructor. now apply py_index_in in E.
    + cbn [mret M_ret]. intros H. apply IH in H as (-> & Hlen & Hin).
      split; [reflexivity|]. split; [simpl; lia | exact Hin].
Qed.

Section IndexFacts.

Context (w : World).

Definition store_texts (st : state) : list str :=
  List.map clause_text (rows (clauses (store st))).

Lemma build_faiss_index_aligned (st st' : state) :
  build_faiss_index w st = (st', Ok tt) ->
  store st' = store st /\
  cache st' = cache st /\
  clause_texts st' = store_texts st /\
  match faiss_index st' with
  | None => store_texts st = []
  | Some index =>
      store_texts st <> [] /\
      length index = length (clause_texts st') /\
      Forall2 (fun c v => embedding_model_encode w (JStr c) = Ok v) (clause_texts st') index
  end.
Proof.
  unfold build_faiss_index, mbind, M_bind, get_state, modify, lift. cbn beta iota.
  fold (store_texts st). destruct (store_texts st) as [|c cs] eqn:E; cbn [nonempty negb].
  - intros [= <-]. now repeat split.
  - destruct (map_result _ _) as [embeddings|e] eqn:Em; [|discriminate].
    intros [= <-]. cbn. apply map_result_ok in Em.
    repeat split; [discriminate | | exact Em].
    symmetry. exact (Forall2_length _ _ _ Em).
Qed.

(** X7: After a rebuild that succeeds, the snapshot is the list of the clause
    texts of the store, in key order, and the index is either [None] over
    an empty store or holds exactly one vector per snapshot text, the one
    the encoder gives for it. *)
Theorem rebuild_aligns_snapshot (st st' : state) :
  build_faiss_index w st = (st', Ok tt) ->
  store st' = store st /\
  cache st' = cache st /\
  clause_texts st' = store_texts st /\
  match faiss_index st' with
  | None => store_texts st = []
  | Some index =>
      store_texts st <> [] /\
      length index = length (clause_texts st') /\
      Forall2 (fun c v => embedding_model_encode w (JStr c) = Ok v) (clause_texts st') index
  end.
Proof. intros. eapply build_faiss_index_aligned; eassumption. Qed.

Lemma build_faiss_index_failure (st st' : state) (e : exn) :
  build_faiss_index w st = (st', Raise e) ->
  clause_texts st' = store_texts st /\
  faiss_index st' = faiss_index st /\
  store st' = store st /\
  cache st' = cache st.
Proof.
  unfold build_faiss_index, mbind, M_bind, get_state, modify, lift. cbn beta iota.
  fold (store_texts st). destruct (nonempty (store_texts st)); cbn [negb].
  - destruct (map_result _ _) as [embeddings|e']; [discriminate|].
    intros [= <- _]. now repeat split.
  - discriminate.
Qed.

(** X8: A rebuild that fails in the encoder has already replaced the snapshot
    by the texts of the store, and leaves the index it found: the two may
    then differ in length. *)
Theorem rebuild_failure_keeps_old_index (st st' : state) (e : exn) :
  build_faiss_index w st = (st', Raise e) ->
  clause_texts st' = store_texts st /\
  faiss_index st' = faiss_index st /\
  store st' = store st /\
  cache st' = cache st.
Proof. intros. eapply build_faiss_index_failure; eassumption. Qed.

Lemma build_faiss_index_cache (st : state) :
  cache (fst (build_faiss_index w st)) = cache st.
Proof.
  destruct (build_faiss_index w st) as [st' [[]|e]] eqn:E.
  - now apply build_faiss_index_aligned in E as (_ & H & _).
  - now apply build_faiss_index_failure in E as (_ & _ & _ & H).
Qed.

Lemma semantic_search_sound (query_text : json) (k : nat) (st st' : state) (rs : list str) :
  semantic_search w query_text k st = (st', Ok rs) ->
  (length rs <= k)%nat /\
  Forall (fun r => In r (clause_texts st')) rs /\
  store st' = store st /\
  cache st' = cache st.
Proof.
  unfold semantic_search, mbind, M_bind, get_state.
  assert (H : exists st1 r, (if faiss_index st is None then build_faiss_index w else mret ()) st = (st1, r)
                            /\ store st1 = store st /\ cache st1 = cache st).
  { destruct (faiss_index st).
    - now exists st, (Ok tt).
    - pose proof (build_faiss_index_store w st) as Hs.
      pose proof (build_faiss_index_cache st) as Hc.
      destruct (build_faiss_index w st) as [st1 r]. now exists st1, r. }
  destruct H as (st1 & r & -> & Hs & Hc).
  destruct r as [[]|e]; [|discriminate].
  destruct (faiss_index st1) as [index|].
  2:{ cbn. intros [= <- <-]. repeat split; [apply Nat.le_0_l | constructor | exact Hs | exact Hc]. }
  destruct (length (clause_texts st1) =? 0)%nat.
  { cbn. intros [= <- <-]. repeat split; [apply Nat.le_0_l | constructor | exact Hs | exact Hc]. }
  unfold lift at 1. destruct (embedding_model_encode w query_text) as [vq|e]; [|discriminate].
  intros H. apply append_clause_loop in H as (-> & Hlen & Hin).
  rewrite length_map, length_search in Hlen. cbn in Hlen.
  repeat split; [lia | apply Hin; constructor | exact Hs | exact Hc].
Qed.

(** X9: Whatever the state of the index, a search that returns gives at most
    [top_k] texts, each of them taken from the snapshot as it is after the
    call, and writes neither to the store nor to the cache. *)
Theorem search_results_from_snapshot (query_text : json) (k : nat) (st st' : state) (rs : list str) :
  semantic_search w query_text k st = (st', Ok rs) ->
  (length rs <= k)%nat /\
  Forall (fun r => In r (clause_texts st')) rs /\
  store st' = store st /\
  cache st' = cache st.
Proof. intros. eapply semantic_search_sound; eassumption. Qed.




End IndexFacts.

(** An encoder that is out of service. *)
Definition offline_world : World := {|
  GEMINI_API_KEY := GEMINI_API_KEY plain_world;
  json_loads := json_loads plain_world;
  generate_content := generate_content plain_world;
  embedding_model_encode := fun _ => Raise unavailable;
  get_text := get_text plain_world;
  uuid4 := uuid4 plain_world;
  query_check := query_check plain_world;
  decision_check := decision_check plain_world
|}.

Lemma rebuild_aligns_snapshot_example :
  clause_texts indexed_state = List.map clause_text two_clauses /\
  faiss_index indexed_state = Some [[35]; [27]].
Proof.
  destruct (rebuild_aligns_snapshot plain_world started_state indexed_state)
    as (_ & _ & H & _); [vm_compute; reflexivity|].
  split; [exact H | vm_compute; reflexivity].
Defined.

(** The encoder fails while the index is [None]: the snapshot now has two
    texts and the index none. *)
Lemma rebuild_failure_keeps_old_index_example :
  let st' := fst (build_faiss_index offline_world started_state) in
  clause_texts st' = List.map clause_text two_clauses /\
  faiss_index st' = None.
Proof.
  intros st'.
  destruct (rebuild_failure_keeps_old_index offline_world started_state st' unavailable)
    as (H1 & H2 & _); [vm_compute; reflexivity|].
  split; [exact H1 | exact H2].
Defined.

Lemma search_results_from_snapshot_example :
  let rs := [py "Waiting period is two years"; py "Claims must be filed within 30 days"] in
  (length rs <= 2)%nat /\
  Forall (fun r => In r (clause_texts indexed_state)) rs.
Proof.
  intros rs.
  destruct (search_results_from_snapshot plain_world (JStr question) 2 indexed_state indexed_state rs)
    as (H1 & H2 & _); [vm_compute; reflexivity|].
  split; [exact H1 | exact H2].
Defined.





(** * Upload, background thread and progress together *)

(** The list [latest_docs] puts in a response, read off a state. *)
Definition latest_docs_of (st : state) : json :=
  JArr (List.map
          (fun d => dict [(py "id", JNum (decimal (doc_id d))); (py "name", JStr (doc_name d))])
          (take 5 (rev (rows (documents (store st)))))).

Definition progress_response (p : string) : response :=
  {| status_code := 200; content := dict [(py "progress", JNum (py p))] |}.

Section UploadFlow.

Context (w : World).

(** The state an accepted upload of [file_obj] leaves. *)
Definition after_upload (file_obj : uploaded_file) (st : state) : state :=
  let task_id := uuid4 w (uuid_count st) in
  set_threads (threads st ++ [(file_obj, task_id)])
    (set_cache (insert (progress_key task_id) 0)
       (set_uuid_count (S (uuid_count st)) st)).

Lemma upload_document_accepted (request : request) (file_obj : uploaded_file) (st : state) :
  method request = py "POST" ->
  FILES_document request = Some file_obj ->
  Forall (fun d => doc_name d <> file_name file_obj) (rows (documents (store st))) ->
  upload_document w request st
  = (after_upload file_obj st,
     Ok {| status_code := 200;
           content := dict [(py "task_id", JStr (uuid4 w (uuid_count st)));
                            (py "latest_docs", latest_docs_of st)] |}) /\
  store (after_upload file_obj st) = store st /\
  cache (after_upload file_obj st) !! progress_key (uuid4 w (uuid_count st)) = Some 0.
Proof.
  intros Hpost Hfile Hfree. split; [|split; [reflexivity | apply lookup_insert_eq]].
  unfold upload_document. rewrite bool_decide_eq_true_2 by exact Hpost.
  rewrite Hfile. unfold mbind, M_bind at 1 2. cbn [mret M_ret]. unfold get_state at 1.
  assert (E : existsb (fun d => bool_decide (doc_name d = file_name file_obj))
                      (rows (documents (store st))) = false).
  { induction Hfree as [|d ds Hd _ IH]; [reflexivity|].
    cbn. now rewrite bool_decide_eq_false_2, IH. }
  rewrite E. reflexivity.
Qed.


Lemma build_faiss_index_frame (st : state) :
  let st' := fst (build_faiss_index w st) in
  store st' = store st /\ cache st' = cache st /\
  uuid_count st' = uuid_count st /\ threads st' = threads st.
Proof.
  unfold build_faiss_index, mbind, M_bind, get_state, modify, lift. cbn.
  destruct (nonempty _); cbn; [|now repeat split].
  destruct (map_result _ _); now repeat split.
Qed.

Lemma extract_progress (file_obj : uploaded_file) (t : str) (st : state) (pages : list str) :
  t <> [] ->
  get_text w (file_bytes file_obj) = Ok pages ->
  Segmenter.clauses_of_pages pages <> [] ->
  cache (fst (extract_and_store_clauses w file_obj (Some t) st)) !! progress_key t = Some 100.
Proof.
  intros Ht Hpages Hne. unfold extract_and_store_clauses.
  unfold mbind, M_bind, mret, M_ret, Document_create, insert_row, lift.
  cbn beta iota. rewrite Hpages.
  match goal with
  | |- context [save_clauses ?d _ ?m 0 ?c ?s] =>
      destruct (save_clauses_spec d t m c Ht 0%nat s) as (s' & -> & _ & _ & Hcache)
  end.
  cbn [fst]. rewrite Hcache by exact Hne. cbn [Nat.add].
  rewrite progress_value_last; [reflexivity|].
  destruct (Segmenter.clauses_of_pages pages); [congruence | simpl; lia].
Qed.

Lemma extract_frame (file_obj : uploaded_file) (task_id : option str) (st : state) :
  let st' := fst (extract_and_store_clauses w file_obj task_id st) in
  rows (documents (store st'))
  = rows (documents (store st))
    ++ [{| doc_id := next_pk (documents (store st));
           doc_name := file_name file_obj; doc_file_path := file_name file_obj |}] /\
  threads st' = threads st /\
  uuid_count st' = uuid_count st.
Proof.
  unfold extract_and_store_clauses.
  unfold mbind, M_bind, mret, M_ret, Document_create, insert_row, lift.
  cbn beta iota zeta.
  destruct (get_text w (file_bytes file_obj)) as [pages|e]; [|now repeat split].
  match goal with
  | |- context [save_clauses ?d ?tid ?n ?i ?c ?s] =>
      destruct (save_clauses_rows d tid n c i s)
        as (s' & -> & _ & (Hd & _ & _ & _ & _ & Hu & Hth) & _)
  end.
  cbn [fst]. rewrite Hd, Hu, Hth. now repeat split.
Qed.

(** What the thread of an upload leaves, whatever becomes of the
    extraction and of the rebuild: one more Document row, named after the
    file; the threads and the identifiers drawn are untouched. *)
Lemma process_file_frame (file_obj : uploaded_file) (t : str) (st : state) :
  let st' := fst (process_file w file_obj t st) in
  rows (documents (store st'))
  = rows (documents (store st))
    ++ [{| doc_id := next_pk (documents (store st));
           doc_name := file_name file_obj; doc_file_path := file_name file_obj |}] /\
  threads st' = threads st /\
  uuid_count st' = uuid_count st.
Proof.
  unfold process_file, mbind, M_bind.
  pose proof (extract_frame file_obj (Some t) st) as H. cbn zeta in H.
  destruct (extract_and_store_clauses w file_obj (Some t) st) as [st1 [r|e]];
    cbn [fst] in *; [|exact H].
  destruct (build_faiss_index_frame st1) as (Hs & _ & Hu & Hth).
  destruct H as (Hd & H1 & H2). rewrite Hs, Hu, Hth, Hd, H1, H2. now repeat split.
Qed.

(** X15: The progress of an accepted upload reads 0 until its thread runs and
    100 once the thread has run, provided the extraction succeeds and
    gives at least one clause; this holds also when the rebuild of the
    index that ends the thread fails. *)
Theorem upload_progress_0_then_100
    (request : request) (file_obj : uploaded_file) (st : state) (pages : list str) :
  method request = py "POST" ->
  FILES_document request = Some file_obj ->
  Forall (fun d => doc_name d <> file_name file_obj) (rows (documents (store st))) ->
  threads st = [] ->
  uuid4 w (uuid_count st) <> [] ->
  get_text w (file_bytes file_obj) = Ok pages ->
  Segmenter.clauses_of_pages pages <> [] ->
  let task_id := uuid4 w (uuid_count st) in
  let st1 := fst (upload_document w request st) in
  let st2 := fst (run_thread w st1) in
  get_progress task_id st1 = (st1, Ok (progress_response "0")) /\
  get_progress task_id st2 = (st2, Ok (progress_response "100")).
Proof.
  intros Hpost Hfile Hfree Hth Ht Hpages Hne task_id st1 st2.
  destruct (upload_document_accepted request file_obj st Hpost Hfile Hfree) as (E & _ & H0).
  subst st1 st2 task_id. rewrite E. cbn [fst]. split.
  - unfold get_progress, mbind, M_bind, get_state. now rewrite H0.
  - unfold get_progress, mbind, M_bind, get_state.
    assert (H100 : cache (fst (run_thread w (after_upload file_obj st)))
                   !! progress_key (uuid4 w (uuid_count st)) = Some 100).
    { unfold run_thread. unfold after_upload at 1. cbn [threads set_threads].
      rewrite Hth. cbn [app fst]. unfold process_file, mbind, M_bind.
      set (s0 := set_threads [] _).
      pose proof (extract_progress file_obj _ s0 pages Ht Hpages Hne) as Hc.
      destruct (extract_and_store_clauses w file_obj (Some (uuid4 w (uuid_count st))) s0)
        as [s1 [[doc n]|e]]; cbn [fst] in *; [|exact Hc].
      now rewrite build_faiss_index_cache. }
    now rewrite H100.
Qed.

(** X16: When the text extraction fails in the thread, the Document row it
    wrote first stays: the progress of the task reads 0 for good, no clause
    was stored, and the same file uploaded again is refused as a
    duplicate. *)
Theorem failed_ingestion_blocks_upload
    (request : request) (file_obj : uploaded_file) (st : state) (e : exn) :
  method request = py "POST" ->
  FILES_document request = Some file_obj ->
  Forall (fun d => doc_name d <> file_name file_obj) (rows (documents (store st))) ->
  threads st = [] ->
  get_text w (file_bytes file_obj) = Raise e ->
  let st2 := fst (run_thread w (fst (upload_document w request st))) in
  clauses (store st2) = clauses (store st) /\
  get_progress (uuid4 w (uuid_count st)) st2 = (st2, Ok (progress_response "0")) /\
  upload_document w request st2
  = (st2, Ok {| status_code := 400;
                content := dict [(py "error", JStr (duplicate_message (file_name file_obj)))] |}).
Proof.
  intros Hpost Hfile Hfree Hth He st2.
  destruct (upload_document_accepted request file_obj st Hpost Hfile Hfree) as (E & _ & H0).
  subst st2. rewrite E. cbn [fst].
  set (s1 := after_upload file_obj st) in *.
  assert (Hrun : fst (run_thread w s1)
                 = set_store (set_documents
                     (Table (rows (documents (store st))
                             ++ [{| doc_id := next_pk (documents (store st));
                                    doc_name := file_name file_obj;
                                    doc_file_path := file_name file_obj |}])
                            (S (next_pk (documents (store st)))))) (set_threads [] s1)).
  { unfold run_thread. subst s1. unfold after_upload at 1. cbn [threads set_threads].
    rewrite Hth. cbn [app fst]. unfold process_file, mbind, M_bind.
    now rewrite (extract_and_store_clauses_fails w _ _ _ _ He). }
  rewrite Hrun. split; [reflexivity|]. split.
  - unfold get_progress, mbind, M_bind, get_state.
    cbn [cache set_store set_threads]. now rewrite H0.
  - unfold upload_document. rewrite bool_decide_eq_true_2 by exact Hpost.
    rewrite Hfile. unfold mbind, M_bind, mret, M_ret, get_state.
    cbn [store set_store set_threads set_documents documents rows].
    rewrite existsb_app. cbn [existsb doc_name].
    rewrite bool_decide_eq_true_2 by reflexivity.
    now rewrite orb_true_r.
Qed.

(** X17: The duplicate check looks at the stored documents only: while the
    thread of an accepted upload has not run, the same upload is accepted
    again, and once both threads have run the store holds two documents of
    that name. *)
Theorem upload_twice_before_thread
    (request : request) (file_obj : uploaded_file) (st : state) :
  method request = py "POST" ->
  FILES_document request = Some file_obj ->
  Forall (fun d => doc_name d <> file_name file_obj) (rows (documents (store st))) ->
  threads st = [] ->
  let st1 := fst (upload_document w request st) in
  let st2 := fst (upload_document w request st1) in
  let st4 := fst (run_thread w (fst (run_thread w st2))) in
  (exists resp, snd (upload_document w request st1) = Ok resp /\ status_code resp = 200) /\
  List.map doc_name (rows (documents (store st4)))
  = List.map doc_name (rows (documents (store st))) ++ [file_name file_obj; file_name file_obj].
Proof.
  intros Hpost Hfile Hfree Hth st1 st2 st4.
  destruct (upload_document_accepted request file_obj st Hpost Hfile Hfree) as (E & _ & _).
  assert (Hfree1 : Forall (fun d => doc_name d <> file_name file_obj)
                          (rows (documents (store (after_upload file_obj st))))) by exact Hfree.
  destruct (upload_document_accepted request file_obj _ Hpost Hfile Hfree1) as (E1 & _ & _).
  subst st4 st2 st1. rewrite E. cbn [fst]. rewrite E1. cbn [fst snd].
  split; [eexists; split; reflexivity|].
  set (t1 := uuid4 w (uuid_count st)).
  set (t2 := uuid4 w (uuid_count (after_upload file_obj st))).
  assert (Hthreads : threads (after_upload file_obj (after_upload file_obj st))
                     = [(file_obj, t1); (file_obj, t2)]).
  { unfold after_upload. cbn. now rewrite Hth. }
  set (s2 := after_upload file_obj (after_upload file_obj st)) in *.
  assert (Hdocs2 : documents (store s2) = documents (store st)) by reflexivity.
  unfold run_thread at 2. rewrite Hthreads. cbn [fst].
  destruct (process_file_frame file_obj t1 (set_threads [(file_obj, t2)] s2))
    as (Hd3 & Hth3 & _).
  set (s3 := fst (process_file w file_obj t1 (set_threads [(file_obj, t2)] s2))) in *.
  unfold run_thread. rewrite Hth3. cbn [threads set_threads fst].
  destruct (process_file_frame file_obj t2 (set_threads [] s3)) as (Hd4 & _).
  cbn zeta in Hd4. rewrite Hd4. cbn [store set_threads]. rewrite Hd3.
  cbn [store set_threads]. rewrite Hdocs2, !List.map_app. cbn.
  now rewrite <- app_assoc.
Qed.

End UploadFlow.

(** PyMuPDF cannot open any file. *)
Definition unreadable : exn := Exn (py "FileDataError") (py "Failed to open stream").
Definition unreadable_world : World := {|
  GEMINI_API_KEY := GEMINI_API_KEY plain_world;
  json_loads := json_loads plain_world;
  generate_content := generate_content plain_world;
  embedding_model_encode := embedding_model_encode plain_world;
  get_text := fun _ => Raise unreadable;
  uuid4 := uuid4 plain_world;
  query_check := query_check plain_world;
  decision_check := decision_check plain_world
|}.

Definition leaflet_upload : request := post [] (Some leaflet).

Lemma leaflet_is_new :
  Forall (fun d => doc_name d <> file_name leaflet) (rows (documents (store started_state))).
Proof. repeat constructor. vm_compute. discriminate. Defined.


Lemma upload_progress_0_then_100_example :
  let st1 := fst (upload_document plain_world leaflet_upload started_state) in
  let st2 := fst (run_thread plain_world st1) in
  get_progress (py "task-0") st1 = (st1, Ok (progress_response "0")) /\
  get_progress (py "task-0") st2 = (st2, Ok (progress_response "100")).
Proof.
  apply (upload_progress_0_then_100 plain_world leaflet_upload leaflet started_state
           [file_bytes leaflet]).
  - reflexivity.
  - reflexivity.
  - exact leaflet_is_new.
  - reflexivity.
  - vm_compute. discriminate.
  - reflexivity.
  - vm_compute. discriminate.
Defined.

Lemma failed_ingestion_blocks_upload_example :
  let st2 := fst (run_thread unreadable_world
                    (fst (upload_document unreadable_world leaflet_upload started_state))) in
  clauses (store st2) = clauses (store started_state) /\
  get_progress (py "task-0") st2 = (st2, Ok (progress_response "0")) /\
  upload_document unreadable_world leaflet_upload st2
  = (st2, Ok {| status_code := 400;
                content := dict [(py "error", JStr (duplicate_message (py "leaflet.pdf")))] |}).
Proof.
  apply (failed_ingestion_blocks_upload unreadable_world leaflet_upload leaflet
           started_state unreadable).
  - reflexivity.
  - reflexivity.
  - exact leaflet_is_new.
  - reflexivity.
  - reflexivity.
Defined.

Lemma upload_twice_before_thread_example :
  let st1 := fst (upload_document plain_world leaflet_upload started_state) in
  let st2 := fst (upload_document plain_world leaflet_upload st1) in
  let st4 := fst (run_thread plain_world (fst (run_thread plain_world st2))) in
  (exists resp, snd (upload_document plain_world leaflet_upload st1) = Ok resp /\
                status_code resp = 200) /\
  List.map doc_name (rows (documents (store st4)))
  = [py "policy.pdf"; py "leaflet.pdf"; py "leaflet.pdf"].
Proof.
  apply (upload_twice_before_thread plain_world leaflet_upload leaflet started_state).
  - reflexivity.
  - reflexivity.
  - exact leaflet_is_new.
  - reflexivity.
Defined.

(** * Deleting a document ([views.py], lines 114-131) *)

Definition Http404 : exn := Exn (py "Http404") (py "No Document matches the given query.").

Section Delete.

Context (w : World).

(** [get_object_or_404(Document, id=doc_id)] *)
Definition get_object_or_404 (id : nat) : M Document :=
  st ← get_state;
  match List.find (fun d => (doc_id d =? id)%nat) (rows (documents (store st))) with
  | Some doc => mret doc
  | None => raise Http404
  end.

(** [doc.delete()]: the clauses go with their document
    ([on_delete=models.CASCADE] in [models.py]). *)
Definition Document_delete (doc : Document) : M unit :=
  modify (set_store (fun d =>
    set_documents
      (Table (List.filter (fun x => negb (doc_id x =? doc_id doc)%nat) (rows (documents d)))
             (next_pk (documents d)))
      (set_clauses
         (Table (List.filter (fun c => negb (clause_document c =? doc_id doc)%nat)
                             (rows (clauses d)))
                (next_pk (clauses d))) d))).

Definition delete_document (id : nat) : M response :=
  doc ← get_object_or_404 id;
  Document_delete doc;;
  build_faiss_index w;;
  docs ← latest_docs;
  JsonResponse (dict [(py "message", JStr (py "Document deleted"));
                      (py "latest_docs", docs)]) 200.

(** The state left by the deletion of the document [id], before the
    rebuild. *)
Definition without_document (id : nat) (st : state) : state :=
  set_store (fun d =>
    set_documents
      (Table (List.filter (fun x => negb (doc_id x =? id)%nat) (rows (documents d)))
             (next_pk (documents d)))
      (set_clauses
         (Table (List.filter (fun c => negb (clause_document c =? id)%nat) (rows (clauses d)))
                (next_pk (clauses d))) d)) st.

Lemma delete_document_steps (id : nat) (st : state) :
  delete_document id st
  = match List.find (fun d => (doc_id d =? id)%nat) (rows (documents (store st))) with
    | None => (st, Raise Http404)
    | Some _ =>
        match build_faiss_index w (without_document id st) with
        | (st', Ok _) =>
            (st', Ok {| status_code := 200;
                        content := dict [(py "message", JStr (py "Document deleted"));
                                         (py "latest_docs", latest_docs_of st')] |})
        | (st', Raise e) => (st', Raise e)
        end
    end.
Proof.
  unfold delete_document, get_object_or_404, Document_delete, latest_docs.
  unfold mbind, M_bind, get_state, modify, mret, M_ret, raise.
  destruct (List.find _ _) as [doc|] eqn:E; [|reflexivity].
  apply find_some in E as [_ E]. apply Nat.eqb_eq in E. rewrite E.
  fold (without_document id st).
  destruct (build_faiss_index w (without_document id st)) as [st' [[]|e]]; reflexivity.
Qed.

Lemma delete_document_cascade (id : nat) (st st' : state) (r : result response) :
  delete_document id st = (st', r) ->
  match r with
  | Raise e =>
      (e = Http404 /\ st' = st /\ Forall (fun d => doc_id d <> id) (rows (documents (store st))))
      \/ (store st' = store (without_document id st) /\ faiss_index st' = faiss_index st)
  | Ok resp =>
      status_code resp = 200 /\
      rows (documents (store st'))
      = List.filter (fun d => negb (doc_id d =? id)%nat) (rows (documents (store st))) /\
      rows (clauses (store st'))
      = List.filter (fun c => negb (clause_document c =? id)%nat) (rows (clauses (store st))) /\
      queries (store st') = queries (store st) /\
      decisions (store st') = decisions (store st) /\
      clause_texts st' = store_texts st'
  end.
Proof.
  rewrite delete_document_steps.
  destruct (List.find _ _) as [doc|] eqn:E.
  - destruct (build_faiss_index w (without_document id st)) as [st1 [[]|e]] eqn:Eb.
    + intros [= <- <-].
      apply build_faiss_index_aligned in Eb as (Hs & _ & Ht & _).
      unfold store_texts in *. rewrite Ht, Hs. now repeat split.
    + intros [= <- <-]. right.
      apply build_faiss_index_failure in Eb as (_ & Hi & Hs & _). now split.
  - intros [= <- <-]. left. repeat split.
    apply Forall_forall. intros d Hd%list_elem_of_In Hid.
    eapply find_none in E; [|exact Hd]. apply Nat.eqb_neq in E. congruence.
Qed.


Lemma semantic_search_snapshot (query_text : json) (k : nat) (st st' : state) (rs : list str) :
  semantic_search w query_text k st = (st', Ok rs) ->
  clause_texts st' = if faiss_index st is None then store_texts st else clause_texts st.
Proof.
  unfold semantic_search, mbind, M_bind, get_state.
  destruct (faiss_index st) as [index|] eqn:Ei.
  - cbn [mret M_ret]. rewrite Ei.
    destruct (length (clause_texts st) =? 0)%nat; [now intros [= <- _]|].
    unfold lift at 1. destruct (embedding_model_encode w query_text); [|discriminate].
    now intros (-> & _)%append_clause_loop.
  - destruct (build_faiss_index w st) as [st1 [[]|e]] eqn:Eb; [|discriminate].
    apply build_faiss_index_aligned in Eb as (_ & _ & Ht & _).
    destruct (faiss_index st1); [|now intros [= <- _]].
    destruct (length (clause_texts st1) =? 0)%nat; [now intros [= <- _]|].
    unfold lift at 1. destruct (embedding_model_encode w query_text); [|discriminate].
    now intros (-> & _)%append_clause_loop.
Qed.

(** X19: After a deletion that is answered, a search returns only texts of
    clauses that are still stored, none of them a clause of the deleted
    document. *)
Theorem search_after_delete
    (id : nat) (st st1 st2 : state) (resp : response)
    (query_text : json) (k : nat) (rs : list str) :
  delete_document id st = (st1, Ok resp) ->
  semantic_search w query_text k st1 = (st2, Ok rs) ->
  Forall (fun r => exists c, In c (rows (clauses (store st))) /\
                             clause_document c <> id /\ clause_text c = r) rs.
Proof.
  intros Hdel Hsearch.
  apply delete_document_cascade in Hdel as (_ & _ & Hcl & _ & _ & Ht).
  pose proof (semantic_search_snapshot _ _ _ _ _ Hsearch) as Hsnap.
  apply semantic_search_sound in Hsearch as (_ & Hin & _).
  assert (Hs2 : clause_texts st2 = store_texts st1)
    by (rewrite Hsnap; now destruct (faiss_index st1)).
  rewrite Hs2 in Hin. unfold store_texts in Hin. rewrite Hcl in Hin.
  eapply Forall_impl; [exact Hin|]. intros r Hr.
  apply in_map_iff in Hr as (c & <- & Hc). apply filter_In in Hc as [Hc Hid].
  exists c. repeat split; [exact Hc|].
  apply negb_true_iff, Nat.eqb_neq in Hid. exact Hid.
Qed.

(** X20: Once a document is deleted its name is free again: an upload under
    that name is accepted, provided no other document carries it. *)
Theorem upload_after_delete
    (id : nat) (st st1 : state) (resp : response)
    (request : request) (file_obj : uploaded_file) :
  delete_document id st = (st1, Ok resp) ->
  method request = py "POST" ->
  FILES_document request = Some file_obj ->
  Forall (fun d => doc_name d = file_name file_obj -> doc_id d = id)
         (rows (documents (store st))) ->
  exists st2 resp2,
    upload_document w request st1 = (st2, Ok resp2) /\ status_code resp2 = 200.
Proof.
  intros Hdel Hpost Hfile Honly.
  apply delete_document_cascade in Hdel as (_ & Hdocs & _).
  destruct (upload_document_accepted w request file_obj st1 Hpost Hfile) as (E & _).
  - rewrite Hdocs. apply Forall_forall. intros d Hd%list_elem_of_In Hname.
    apply filter_In in Hd as [Hd Hid].
    apply negb_true_iff, Nat.eqb_neq in Hid. apply Hid.
    rewrite Forall_forall in Honly. apply Honly; [now apply list_elem_of_In | exact Hname].
  - rewrite E. now eexists _, _.
Qed.

End Delete.

(** Two documents in the store, the index built over their four clauses. *)
Definition library_state : state :=
  fst (run_thread plain_world (fst (upload_document plain_world leaflet_upload indexed_state))).

Definition deleted_response (st : state) : response :=
  {| status_code := 200;
     content := dict [(py "message", JStr (py "Document deleted"));
                      (py "latest_docs", latest_docs_of st)] |}.


Lemma search_after_delete_example :
  Forall (fun r => exists c, In c (rows (clauses (store library_state))) /\
                             clause_document c <> 1%nat /\ clause_text c = r)
         [py "Section 1 a"; py "Cover starts on the first day of the month after enrolment."].
Proof.
  apply (search_after_delete plain_world 1 library_state
           (fst (delete_document plain_world 1 library_state))
           (fst (delete_document plain_world 1 library_state))
           (deleted_response (fst (delete_document plain_world 1 library_state)))
           (JStr question) 2).
  - vm_compute. reflexivity.
  - vm_compute. reflexivity.
Defined.

Lemma upload_after_delete_example :
  exists st2 resp2,
    upload_document plain_world (post [] (Some policy_upload))
      (fst (delete_document plain_world 1 library_state)) = (st2, Ok resp2)
    /\ status_code resp2 = 200.
Proof.
  apply (upload_after_delete plain_world 1 library_state _
           (deleted_response (fst (delete_document plain_world 1 library_state)))
           (post [] (Some policy_upload)) policy_upload).
  - vm_compute. reflexivity.
  - reflexivity.
  - reflexivity.
  - vm_compute. repeat constructor; intros H; try reflexivity; discriminate H.
Defined.

(** * Further properties of clause resolution *)

Lemma is_prefix_refl (s : str) : is_prefix s s = true.
Proof. induction s as [|c s IH]; [reflexivity|]. cbn. now rewrite N.eqb_refl. Qed.

Lemma icontains_refl (s : str) : icontains s s = true.
Proof.
  unfold icontains. destruct (List.map lower s) as [|c t] eqn:E; [reflexivity|].
  cbn [contains]. now rewrite is_prefix_refl.
Qed.

Lemma canonical_stored (cls : list Clause) (c : Clause) :
  In c cls ->
  exists c', In c' cls /\ canonical cls (clause_text c) = Some (clause_text c') /\
             icontains (clause_text c') (clause_text c) = true.
Proof.
  intros Hin. unfold canonical, first_icontains.
  destruct (List.find _ cls) as [c'|] eqn:E.
  - apply find_some in E as [Hc' Hi]. now exists c'.
  - eapply find_none in E; [|exact Hin]. cbn in E. now rewrite icontains_refl in E.
Qed.


(** X22: If moreover no stored text contains another one, resolution gives the
    snippets back unchanged. *)
Theorem resolution_identity (cls : list Clause) (snippets : list str) :
  Forall (fun s => exists c, In c cls /\ clause_text c = s) snippets ->
  (forall c c', In c cls -> In c' cls ->
                icontains (clause_text c') (clause_text c) = true ->
                clause_text c' = clause_text c) ->
  matched_clauses_texts cls snippets = snippets.
Proof.
  intros Hall Hsep. rewrite matched_clauses_texts_all.
  - induction Hall as [|s snippets (c & Hc & <-) _ IH]; [reflexivity|].
    cbn [List.map]. rewrite IH. f_equal.
    destruct (canonical_stored cls c Hc) as (c' & Hc' & -> & Hi). cbn.
    now apply Hsep.
  - eapply Forall_impl; [exact Hall|]. intros s (c & Hc & <-).
    destruct (canonical_stored cls c Hc) as (c' & _ & -> & _). now eexists.
Qed.



Lemma resolution_identity_example :
  matched_clauses_texts two_clauses [py "Waiting period is two years"]
  = [py "Waiting period is two years"].
Proof.
  apply (resolution_identity two_clauses [py "Waiting period is two years"]).
  - repeat constructor. eexists. split; [right; left; reflexivity | reflexivity].
  - intros c c' [<-|[<-|[]]] [<-|[<-|[]]]; vm_compute; intros H;
      reflexivity || discriminate H.
Defined.

(** * Further properties of the fence stripping *)

Lemma replace_from_skip (old new a s : str) :
  replace_from old new (length a) (a ++ s) = replace_from old new 0 s.
Proof.
  induction a as [|c a IH]; [reflexivity|]. cbn [length app replace_from]. exact IH.
Qed.

Lemma replace_prefix (old new s : str) :
  old <> [] -> replace (old ++ s) old new = new ++ replace s old new.
Proof.
  intros Hne. destruct old as [|c old]; [congruence|].
  unfold replace. cbn [app replace_from].
  change (is_prefix (c :: old) (c :: old ++ s)) with ((c =? c)%N && is_prefix old (old ++ s)).
  rewrite N.eqb_refl. cbn [andb].
  assert (H : forall p t, is_prefix p (p ++ t) = true).
  { induction p as [|x p IH]; intros t; [reflexivity|]. cbn. rewrite N.eqb_refl. apply IH. }
  rewrite H. cbn [length Nat.pred]. now rewrite replace_from_skip.
Qed.

Lemma replace_without_first (c : N) (old new s t : str) :
  Forall (fun x => x <> c) s ->
  replace (s ++ t) (c :: old) new = s ++ replace t (c :: old) new.
Proof.
  unfold replace. induction 1 as [|x s Hx _ IH]; [reflexivity|].
  cbn [app replace_from is_prefix].
  replace (c =? x)%N with false by (symmetry; apply N.eqb_neq; congruence).
  cbn [andb]. now rewrite IH.
Qed.

(** X23: A reply made of the fenced block [```json BODY ```], with no backquote
    in [BODY], is reduced to [BODY] without the white space around it; a
    reply that does not begin with a fence is left as it is. *)
Theorem strip_fence_json_block (body : str) :
  Forall (fun x => x <> 96%N) body ->
  strip_fence (py "```json" ++ body ++ fence) = strip body /\
  strip_fence body = body.
Proof.
  intros Hbody. split.
  - unfold strip_fence. change (startswith (py "```json" ++ body ++ fence) fence) with true.
    cbv iota. rewrite replace_prefix by discriminate. cbn [app].
    change (py "```json") with (96%N :: py "``json").
    rewrite replace_without_first by exact Hbody.
    change (replace fence (96%N :: py "``json") []) with fence.
    change fence with (96%N :: py "``") at 2.
    rewrite replace_without_first by exact Hbody.
    change (replace fence (96%N :: py "``") []) with ([] : str).
    now rewrite app_nil_r.
  - unfold strip_fence, startswith.
    destruct Hbody as [|x body Hx _]; [reflexivity|].
    change (is_prefix fence (x :: body)) with ((96 =? x)%N && is_prefix (py "``") body).
    replace (96 =? x)%N with false by (symmetry; apply N.eqb_neq; congruence).
    reflexivity.
Qed.

Lemma strip_fence_json_block_example :
  strip_fence fenced_empty_object = py "{}".
Proof.
  destruct (strip_fence_json_block ([10%N] ++ py "{}" ++ [10%N])) as [H _].
  - repeat constructor; discriminate.
  - exact H.
Defined.

(** * Further properties of the decision step *)

Definition invalid_output : json := JStr (py "Gemini returned invalid output.").

Ltac dict_lookup :=
  unfold dict; cbn [list_to_map fold_right fst snd];
  rewrite !lookup_insert;
  repeat match goal with
         | |- context [decide (?a = ?b)] =>
             let Hk := fresh "Hk" in
             destruct (decide (a = b)) as [Hk|Hk];
             [ try (vm_compute in Hk; discriminate Hk)
             | try (exfalso; apply Hk; reflexivity) ]
         end;
  try reflexivity.

Section DecisionStep.

Context (w : World).

(** The state after the Decision row [d] is written. *)
Definition with_decision (d : nat -> Decision) (st : state) : state :=
  set_store (set_decisions
               (Table (rows (decisions (store st)) ++ [d (next_pk (decisions (store st)))])
                      (S (next_pk (decisions (store st)))))) st.

(** X24: A reply to the decision prompt that is no JSON at all is replaced by
    the fixed object: one Decision row with status "Needs Review", a null
    amount, the text "Gemini returned invalid output." and the resolved
    clauses is written, and the same object is answered with status 200. *)
Theorem invalid_decision_reply (q : Query) (text : json) (matched : list str)
    (st : state) (res : str) :
  generate_content w (DecisionPrompt text matched) = Ok res ->
  json_loads w (strip_fence (strip res)) = None ->
  decision_check w needs_review JNull invalid_output (texts matched) = None ->
  decision_engine w q text matched st
  = (with_decision (fun pk => {| decision_id := pk; decision_query := query_id q;
                                 decision_status := needs_review; amount := JNull;
                                 justification := invalid_output;
                                 referenced_clauses := texts matched |}) st,
     Ok {| status_code := 200;
           content := dict [(py "decision", needs_review);
                            (py "amount", JNull);
                            (py "justification", invalid_output);
                            (py "referenced_clauses", texts matched)] |}).
Proof.
  intros Hreply Hloads Hcheck.
  unfold decision_engine, mbind, M_bind, lift. rewrite Hreply, Hloads.
  fold invalid_output.
  set (fixed := [(py "decision", needs_review); (py "amount", JNull);
                 (py "justification", invalid_output);
                 (py "referenced_clauses", texts matched)]).
  assert (E1 : list_to_map (M := gmap str json) fixed !! py "decision" = Some needs_review)
    by (subst fixed; dict_lookup).
  assert (E2 : list_to_map (M := gmap str json) fixed !! py "amount" = Some JNull)
    by (subst fixed; dict_lookup).
  assert (E3 : list_to_map (M := gmap str json) fixed !! py "justification" = Some invalid_output)
    by (subst fixed; dict_lookup).
  assert (E4 : list_to_map (M := gmap str json) fixed !! py "referenced_clauses"
               = Some (texts matched))
    by (subst fixed; dict_lookup).
  unfold dict. cbn [py_in]. rewrite E1.
  rewrite bool_decide_eq_true_2 by (now eexists).
  cbn [mret M_ret py_getitem py_get]. rewrite E1, E2, E3, E4.
  unfold Decision_create. rewrite Hcheck. reflexivity.
Qed.


(** X26: A reply that is a JSON object with [decision] but without
    [justification] writes no Decision: the request ends in the 500
    response whose justification names the missing key. *)
Theorem missing_justification_degrades
    (request : request) (st st1 st2 st3 : state) (q : Query) (text : json)
    (matched : list str) (res : str) (m : gmap str json) (status : json) :
  enters_try w request st q text st1 ->
  parse_query w q text st1 = (st2, Ok tt) ->
  retrieve w text st2 = (st3, Ok matched) ->
  generate_content w (DecisionPrompt text matched) = Ok res ->
  json_loads w (strip_fence (strip res)) = Some (JObj m) ->
  m !! py "decision" = Some status ->
  m !! py "justification" = None ->
  process_query w request st = (st3, Ok (degraded (KeyError "justification"))) /\
  decisions (store st3) = decisions (store st).
Proof.
  intros Henter Hparse Hretrieve Hreply Hloads Hstatus Hjust.
  rewrite (process_query_in_try w _ _ _ _ _ Henter).
  assert (Hpipe : pipeline w q text st1 = (st3, Raise (KeyError "justification"))).
  { unfold pipeline, mbind, M_bind. rewrite Hparse, Hretrieve.
    unfold decision_engine, mbind, M_bind, lift. rewrite Hreply, Hloads.
    cbn [py_in]. rewrite Hstatus. rewrite bool_decide_eq_true_2 by (now eexists).
    cbn [mret M_ret py_getitem py_get]. now rewrite Hstatus, Hjust. }
  unfold try_except. rewrite Hpipe. split; [reflexivity|].
  pose proof (pipeline_outcome w q text st1) as Hout. rewrite Hpipe in Hout.
  destruct Hout as [Hdec _]. rewrite Hdec.
  destruct Henter as (_ & _ & Hcreate & _). revert Hcreate. unfold Query_create.
  destruct (query_check w text); [discriminate|]. now intros [= <- _].
Qed.


End DecisionStep.

(** The reasoning capability answers the decision prompt with [reply],
    which [json.loads] reads as [value]. *)
Definition reply_world (reply : str) (value : json) : World := {|
  GEMINI_API_KEY := GEMINI_API_KEY plain_world;
  json_loads := fun s => if bool_decide (s = reply) then Some value else example_json_loads s;
  generate_content := fun p =>
    match p with
    | ParsePrompt _ => Ok fenced_empty_object
    | DecisionPrompt _ _ => Ok reply
    end;
  embedding_model_encode := embedding_model_encode plain_world;
  get_text := get_text plain_world;
  uuid4 := uuid4 plain_world;
  query_check := query_check plain_world;
  decision_check := decision_check plain_world
|}.



Definition bare_reply : str :=
  py "{" ++ quoted (py "decision") ++ py ": " ++ quoted (py "Approved") ++ py "}".

Definition bare_fields : gmap str json :=
  list_to_map [(py "decision", JStr (py "Approved"))].

Definition prose_world : World :=
  example_world (Some (py "key")) (Ok (py "I cannot decide this.")).

Lemma invalid_decision_reply_example :
  rows (decisions (store (fst (decision_engine prose_world asked_query (JStr question)
                                 asked_matched asked_state))))
  = [{| decision_id := 1; decision_query := 1; decision_status := needs_review;
        amount := JNull; justification := invalid_output;
        referenced_clauses := texts asked_matched |}].
Proof.
  rewrite (invalid_decision_reply prose_world asked_query (JStr question) asked_matched
             asked_state (py "I cannot decide this.")); reflexivity.
Defined.


Lemma missing_justification_degrades_example :
  snd (process_query (reply_world bare_reply (JObj bare_fields)) ask indexed_state)
  = Ok (degraded (KeyError "justification")).
Proof.
  set (w := reply_world bare_reply (JObj bare_fields)).
  assert (Henter : enters_try w ask indexed_state asked_query (JStr question) asked_state).
  { split; [reflexivity|]. split; [|split].
    - exists (dict [(py "query", JStr question)]). split; vm_compute; reflexivity.
    - vm_compute. reflexivity.
    - eexists. reflexivity. }
  destruct (missing_justification_degrades w ask indexed_state asked_state
              (fst (parse_query w asked_query (JStr question) asked_state))
              (fst (retrieve w (JStr question)
                      (fst (parse_query w asked_query (JStr question) asked_state))))
              asked_query (JStr question) asked_matched bare_reply bare_fields
              (JStr (py "Approved")) Henter) as [H _];
    [vm_compute; reflexivity | vm_compute; reflexivity | vm_compute; reflexivity
    | vm_compute; reflexivity | vm_compute; reflexivity | vm_compute; reflexivity |].
  now rewrite H.
Defined.


(** * What can make a search fail, and what ingestion makes searchable *)




Section SearchFailures.

Context (w : World).


(** X6: After a thread has run to its end without raising, the snapshot is
    the texts the store held before, followed by the clauses segmented
    from the uploaded file, and the index has one vector for each. *)
Theorem process_file_indexes (file_obj : uploaded_file) (t : str) (st st' : state)
    (pages : list str) :
  get_text w (file_bytes file_obj) = Ok pages ->
  process_file w file_obj t st = (st', Ok tt) ->
  clause_texts st' = store_texts st ++ Segmenter.clauses_of_pages pages /\
  match faiss_index st' with
  | Some index => length index = length (clause_texts st')
  | None => clause_texts st' = []
  end.
Proof.
  intros Hpages. unfold process_file, mbind, M_bind.
  destruct (extract_and_store_clauses_rows w file_obj (Some t) st pages Hpages)
    as (st1 & -> & _ & Hcl & _).
  intros Hb. apply build_faiss_index_aligned in Hb as (_ & _ & Ht & Hi).
  assert (Hst1 : store_texts st1 = store_texts st ++ Segmenter.clauses_of_pages pages).
  { unfold store_texts. now rewrite Hcl, List.map_app, new_clauses_texts. }
  rewrite Ht, Hst1. split; [reflexivity|].
  destruct (faiss_index st'); [|now rewrite <- Hst1].
  destruct Hi as (_ & Hlen & _). now rewrite Hlen, Ht, Hst1.
Qed.

End SearchFailures.


Lemma process_file_indexes_example :
  clause_texts library_state
  = List.map clause_text two_clauses
    ++ [py "Cover starts on the first day of the month after enrolment."; py "Section 1 a"].
Proof.
  destruct (process_file_indexes plain_world leaflet (py "task-0")
              (set_threads [] (fst (upload_document plain_world leaflet_upload indexed_state)))
              library_state [file_bytes leaflet]) as [H _].
  - reflexivity.
  - vm_compute. reflexivity.
  - rewrite H. vm_compute. reflexivity.
Defined.
